(** * OrderMaster2: the storage layer and the routes

    A shallow embedding of [src/server/storage.ts] ([DatabaseStorage]),
    of the tables of [src/shared/schema.ts] and of the Express routes of
    [registerRoutes] (apartments, employees, calendar and statistics),
    with the PostgreSQL behaviour the code relies on written out: the [integer] type of id parameters,
    foreign keys with [ON DELETE CASCADE], the unique (apartment, employee)
    pair of [assignments], [numeric(10,2)] prices, column defaults, [LIKE]
    with its wildcards and three-valued [OR], [ORDER BY] ([NULLS LAST] for
    ascending order), [GROUP BY] with [count] and [LIMIT].

    Text comparisons ([ORDER BY] on a varchar, [>=] and [<] on
    [cleaning_date]) follow the database collation; the embedding uses the
    C collation, i.e. byte order ([String.compare]).

    Statements run one after the other without a transaction, as in the
    source: a statement that fails leaves the writes of earlier statements
    in place.  Hence the monad carries the store also on failure. *)

From Stdlib Require Import String Ascii List ZArith Lia Bool.
From Stdlib Require Import Sorting.Sorted Sorting.Permutation DecimalPos.
Import ListNotations.

Open Scope Z_scope.

(* ------------------------------------------------------------------ *)
(** ** Rows (src/shared/schema.ts) *)

(** A [numeric] literal sent by the client (the [price] of the request
    body, a JS number or a string): [digits * 10^-scale]. *)
Record decimal := mkDecimal { digits : Z; scale : nat }.

Module Apartment.
  (** A row of [apartments].  [price] is the [numeric(10,2)] value in
      hundredths; [user_id] is the owning account, [NOT NULL] in the
      schema. *)
Record t := mk {
    id : Z;
    name : string;
    cleaning_date : string;
    start_time : option string;
    status : string;
    payment_status : string;
    notes : option string;
    price : option Z;
    user_id : option Z
  }.
End Apartment.

Module Employee.
  (** A row of [employees]. *)
Record t := mk {
    id : Z;
    first_name : string;
    last_name : string;
    user_id : option Z
  }.
End Employee.

Module Assignment.
  (** A row of [assignments]. *)
Record t := mk {
    id : Z;
    apartment_id : Z;
    employee_id : Z
  }.
End Assignment.

(** The columns [getEmployeesForApartment] selects. *)
Module EmployeeName.
Record t := mk {
    id : Z;
    first_name : string;
    last_name : string
  }.
End EmployeeName.

(** [InsertApartment]: the body of [POST/PUT /apartments] once
    [employee_ids] is taken out.  A column with a default is [None] when
    the key is absent; a nullable column is [None] when absent,
    [Some None] when [null]. *)
Module InsertApartment.
Record t := mk {
    name : string;
    cleaning_date : string;
    start_time : option (option string);
    status : option string;
    payment_status : option string;
    notes : option (option string);
    price : option (option decimal)
  }.
End InsertApartment.

(** [ApartmentWithAssignedEmployees]. *)
Record ApartmentWithAssignedEmployees := mkAWE {
  apartment : Apartment.t;
  employees : list EmployeeName.t
}.

(** The database: the three tables and their [serial] sequences. *)
Record store := mkStore {
  apartments : list Apartment.t;
  employees_tbl : list Employee.t;
  assignments : list Assignment.t;
  apartments_seq : Z;
  employees_seq : Z;
  assignments_seq : Z
}.

(* ------------------------------------------------------------------ *)
(** ** Statements without transaction: state and error *)

Inductive outcome (A : Type) : Type :=
| Ok (a : A)
| Throw (msg : string).
Arguments Ok {A} a.
Arguments Throw {A} msg.

Definition M (A : Type) : Type := store -> outcome A * store.

Definition ret {A} (a : A) : M A := fun s => (Ok a, s).
Definition throw {A} (msg : string) : M A := fun s => (Throw msg, s).
Definition bind {A B} (m : M A) (f : A -> M B) : M B :=
  fun s => match m s with
           | (Ok a, s') => f a s'
           | (Throw e, s') => (Throw e, s')
           end.
Definition get_store : M store := fun s => (Ok s, s).
Definition put_store (s : store) : M unit := fun _ => (Ok tt, s).

Notation "'do' x <- m ; k" := (bind m (fun x => k))
  (at level 60, x name, m at next level, right associativity).
Notation "m ;; k" := (bind m (fun _ => k)) (at level 60, right associativity).

(** [for (const x of xs) await f(x)]. *)
Fixpoint for_each {A} (f : A -> M unit) (xs : list A) : M unit :=
  match xs with
  | [] => ret tt
  | x :: xs' => f x ;; for_each f xs'
  end.

Definition with_tables (s : store) (apts : list Apartment.t)
  (emps : list Employee.t) (asgs : list Assignment.t) : store :=
  mkStore apts emps asgs (apartments_seq s) (employees_seq s) (assignments_seq s).

(* ------------------------------------------------------------------ *)
(** ** PostgreSQL values *)

(** An id parameter compared with or stored in an [integer] column must
    fit 32 bits, else the statement fails. *)
Definition int4_ok (z : Z) : bool := (- 2 ^ 31 <=? z) && (z <? 2 ^ 31).

Definition check_int4 (z : Z) : M unit :=
  if int4_ok z then ret tt
  else throw "value out of range for type integer".

(** [nextval] of a [serial] sequence: its values are those of [integer],
    and the sequence fails once past [2^31 - 1]. *)
Definition nextval (v : Z) : M unit :=
  if int4_ok v then ret tt
  else throw "nextval: reached maximum value of sequence".

(** A text parameter holding a NUL byte: PostgreSQL refuses it when the
    statement is bound (invalid byte sequence for encoding UTF8: 0x00),
    before the statement does anything. *)
Definition has_nul (t : string) : bool :=
  existsb (fun c => Ascii.eqb c "000"%char) (list_ascii_of_string t).

Definition bind_texts (ts : list string) : M unit :=
  if existsb has_nul ts then throw "invalid byte sequence for encoding UTF8: 0x00"
  else ret tt.

(** Cast to [numeric(10,2)]: round half away from zero to two places;
    at most 10 digits, so the hundredths stay below [10^10]. *)
Definition numeric_10_2 (d : decimal) : option Z :=
  let c :=
    match (scale d <=? 2)%nat with
    | true => digits d * 10 ^ (2 - Z.of_nat (scale d))
    | false =>
        let q := 10 ^ (Z.of_nat (scale d) - 2) in
        Z.sgn (digits d) * ((2 * Z.abs (digits d) + q) / (2 * q))
    end in
  if Z.abs c <? 10 ^ 10 then Some c else None.

(** Value of a nullable [numeric(10,2)] column from a request value. *)
Definition price_value (p : option decimal) : option (option Z) :=
  match p with
  | None => Some None
  | Some d => match numeric_10_2 d with
              | Some c => Some (Some c)
              | None => None
              end
  end.

(* ------------------------------------------------------------------ *)
(** ** Text: byte-order collation, JS number formatting *)

Definition str_le (a b : string) : bool := String.leb a b.
Definition str_lt (a b : string) : bool := String.ltb a b.

Fixpoint string_of_uint (u : Decimal.uint) : string :=
  match u with
  | Decimal.Nil => ""
  | Decimal.D0 u' => String "0" (string_of_uint u')
  | Decimal.D1 u' => String "1" (string_of_uint u')
  | Decimal.D2 u' => String "2" (string_of_uint u')
  | Decimal.D3 u' => String "3" (string_of_uint u')
  | Decimal.D4 u' => String "4" (string_of_uint u')
  | Decimal.D5 u' => String "5" (string_of_uint u')
  | Decimal.D6 u' => String "6" (string_of_uint u')
  | Decimal.D7 u' => String "7" (string_of_uint u')
  | Decimal.D8 u' => String "8" (string_of_uint u')
  | Decimal.D9 u' => String "9" (string_of_uint u')
  end.

(** [n.toString()] for an integral JS number. *)
Definition to_string (z : Z) : string :=
  match z with
  | Zneg p => String "-" (string_of_uint (Pos.to_uint p))
  | _ => string_of_uint (N.to_uint (Z.to_N z))
  end.

(** [s.padStart(2, '0')]. *)
Definition pad_start_2 (s : string) : string :=
  match String.length s with
  | O => "00"
  | S O => String "0" s
  | _ => s
  end.

(* ------------------------------------------------------------------ *)
(** ** [LIKE] (default escape character backslash) *)

Definition ascii_eqb (a b : ascii) : bool := Ascii.eqb a b.

(** [t LIKE p]: [%] matches any sequence, [_] any one character,
    a backslash makes the next pattern character literal.  A pattern
    ending in a lone backslash is an error in PostgreSQL; it never matches
    here (the patterns built by the storage layer end in [%]). *)
Fixpoint like_match (p t : list ascii) : bool :=
  match p with
  | [] => match t with [] => true | _ => false end
  | "%"%char :: p' =>
      (fix star (t : list ascii) : bool :=
         like_match p' t || match t with [] => false | _ :: t' => star t' end) t
  | "_"%char :: p' =>
      match t with [] => false | _ :: t' => like_match p' t' end
  | "\"%char :: c :: p' =>
      match t with [] => false | c' :: t' => ascii_eqb c c' && like_match p' t' end
  | "\"%char :: [] => false
  | c :: p' =>
      match t with [] => false | c' :: t' => ascii_eqb c c' && like_match p' t' end
  end.

Definition like (t p : string) : bool :=
  like_match (list_ascii_of_string p) (list_ascii_of_string t).

(** SQL three-valued [OR]; [None] is [NULL]. *)
Definition sql_or (a b : option bool) : option bool :=
  match a, b with
  | Some true, _ | _, Some true => Some true
  | Some false, Some false => Some false
  | _, _ => None
  end.

(** A [WHERE] keeps a row only when its condition is [TRUE]. *)
Definition sql_true (a : option bool) : bool :=
  match a with Some true => true | _ => false end.

(* ------------------------------------------------------------------ *)
(** ** [ORDER BY]: a sort of the rows by a comparison *)

Section Sort.
Context {A : Type} (le : A -> A -> bool).

Fixpoint insert_by (x : A) (l : list A) : list A :=
    match l with
    | [] => [x]
    | y :: l' => if le x y then x :: l else y :: insert_by x l'
    end.

Fixpoint sort_by (l : list A) : list A :=
    match l with
    | [] => []
    | x :: l' => insert_by x (sort_by l')
    end.
End Sort.

(** Ascending and descending order on a text column. *)
Definition asc_by {A} (key : A -> string) (a b : A) : bool := str_le (key a) (key b).
Definition desc_by {A} (key : A -> string) (a b : A) : bool := str_le (key b) (key a).

(** [ORDER BY c1 ASC, c2 ASC] with [c2] nullable: [NULL]s last. *)
Definition asc_nulls_last (a b : option string) : bool :=
  match a, b with
  | Some x, Some y => str_le x y
  | Some _, None => true
  | None, Some _ => false
  | None, None => true
  end.

(* ------------------------------------------------------------------ *)
(** ** Statements on the tables *)

(** [db.select().from(apartments).where(eq(apartments.id, id))]. *)
Definition select_apartments_by_id (id : Z) : M (list Apartment.t) :=
  check_int4 id ;;
  do s <- get_store;
  ret (filter (fun a => Apartment.id a =? id) (apartments s)).

(** [getEmployeesForApartment]: [employees INNER JOIN assignments ON
    assignments.employee_id = employees.id WHERE assignments.apartment_id
    = apartmentId], selecting id, first and last name. *)
Definition employees_for_apartment (s : store) (apartmentId : Z) : list EmployeeName.t :=
  flat_map (fun e =>
    map (fun _ => EmployeeName.mk (Employee.id e) (Employee.first_name e) (Employee.last_name e))
      (filter (fun asg => (Assignment.employee_id asg =? Employee.id e)
                          && (Assignment.apartment_id asg =? apartmentId))
              (assignments s)))
    (employees_tbl s).

Definition getEmployeesForApartment (apartmentId : Z) : M (list EmployeeName.t) :=
  check_int4 apartmentId ;;
  do s <- get_store;
  ret (employees_for_apartment s apartmentId).

(** [const employees = await this.getEmployeesForApartment(apt.id);
    results.push({...apt, employees})] for each row. *)
Fixpoint with_employees (rows : list Apartment.t) : M (list ApartmentWithAssignedEmployees) :=
  match rows with
  | [] => ret []
  | apt :: rows' =>
      do emps <- getEmployeesForApartment (Apartment.id apt);
      do rest <- with_employees rows';
      ret (mkAWE apt emps :: rest)
  end.

(** The [price] column value of a body: [NULL] when absent or [null],
    [None] when the cast to [numeric(10,2)] overflows. *)
Definition price_of_payload (a : InsertApartment.t) : option (option Z) :=
  price_value (match InsertApartment.price a with Some p => p | None => None end).

(** The text values a body binds: [name], [cleaning_date] and those of
    [start_time], [status], [payment_status] and [notes] that are present
    and not [null]. *)
Definition payload_texts (a : InsertApartment.t) : list string :=
  [InsertApartment.name a; InsertApartment.cleaning_date a]
  ++ match InsertApartment.start_time a with Some (Some t) => [t] | _ => [] end
  ++ match InsertApartment.status a with Some t => [t] | None => [] end
  ++ match InsertApartment.payment_status a with Some t => [t] | None => [] end
  ++ match InsertApartment.notes a with Some (Some t) => [t] | _ => [] end.

(** [insert(apartments).values(apartment).returning()].  The bound
    values are checked first: a NUL byte in a text, and the cast of the
    price to [numeric(10,2)], folded when the statement is planned.  The
    executor then takes [nextval] for [id] and checks the [NOT NULL]
    columns of the row: [user_id] is not among the keys of the body and
    has no default, so it is [NULL], while [apartments.user_id] is
    [NOT NULL] in the schema; the insert fails there, after the sequence
    has moved. *)
Definition insert_apartment (a : InsertApartment.t) : M Apartment.t :=
  bind_texts (payload_texts a) ;;
  match price_of_payload a with
  | None => throw "numeric field overflow"
  | Some _ =>
      do s <- get_store;
      let id := apartments_seq s in
      nextval id ;;
      put_store (mkStore (apartments s) (employees_tbl s) (assignments s)
                         (id + 1) (employees_seq s) (assignments_seq s)) ;;
      throw "null value in column user_id of relation apartments violates not-null constraint"
  end.

(** [.set(apartment)]: the keys present in the body overwrite the
    columns, absent keys leave them as they are. *)
Definition set_fields (a : InsertApartment.t) (pr : option Z) (row : Apartment.t) : Apartment.t :=
  Apartment.mk (Apartment.id row) (InsertApartment.name a) (InsertApartment.cleaning_date a)
    (match InsertApartment.start_time a with Some v => v | None => Apartment.start_time row end)
    (match InsertApartment.status a with Some v => v | None => Apartment.status row end)
    (match InsertApartment.payment_status a with Some v => v | None => Apartment.payment_status row end)
    (match InsertApartment.notes a with Some v => v | None => Apartment.notes row end)
    (match InsertApartment.price a with Some _ => pr | None => Apartment.price row end)
    (Apartment.user_id row).

(** [update(apartments).set(apartment).where(eq(apartments.id, id))]: the
    bound values are checked (the id, NUL bytes, the price) before any row
    is written. *)
Definition update_apartment (id : Z) (a : InsertApartment.t) : M unit :=
  check_int4 id ;;
  bind_texts (payload_texts a) ;;
  match price_of_payload a with
  | None => throw "numeric field overflow"
  | Some pr =>
      do s <- get_store;
      put_store (with_tables s
        (map (fun row => if Apartment.id row =? id then set_fields a pr row else row) (apartments s))
        (employees_tbl s) (assignments s))
  end.

(** [delete(assignments).where(eq(assignments.apartment_id, apartmentId))]. *)
Definition deleteAssignmentsByApartment (apartmentId : Z) : M unit :=
  check_int4 apartmentId ;;
  do s <- get_store;
  put_store (with_tables s (apartments s) (employees_tbl s)
    (filter (fun asg => negb (Assignment.apartment_id asg =? apartmentId)) (assignments s))).

(** [insert(assignments).values(assignment).returning()]: [nextval] for
    the id, then the foreign keys and the unique (apartment, employee)
    pair are checked. *)
Definition createAssignment (apartment_id employee_id : Z) : M Assignment.t :=
  check_int4 apartment_id ;;
  check_int4 employee_id ;;
  do s <- get_store;
  let aid := assignments_seq s in
  nextval aid ;;
  let s1 := mkStore (apartments s) (employees_tbl s) (assignments s)
                    (apartments_seq s) (employees_seq s) (aid + 1) in
  put_store s1 ;;
  if negb (existsb (fun a => Apartment.id a =? apartment_id) (apartments s1)) then
    throw "insert or update on table assignments violates foreign key constraint (apartment_id)"
  else if negb (existsb (fun e => Employee.id e =? employee_id) (employees_tbl s1)) then
    throw "insert or update on table assignments violates foreign key constraint (employee_id)"
  else if existsb (fun asg => (Assignment.apartment_id asg =? apartment_id)
                              && (Assignment.employee_id asg =? employee_id)) (assignments s1) then
    throw "duplicate key value violates unique constraint (apartment_id, employee_id)"
  else
    let row := Assignment.mk aid apartment_id employee_id in
    put_store (with_tables s1 (apartments s1) (employees_tbl s1) (assignments s1 ++ [row])) ;;
    ret row.

(** [delete(apartments).where(eq(apartments.id, id))]; the assignments
    of the deleted rows go with them ([ON DELETE CASCADE]). *)
Definition delete_apartments (id : Z) : M unit :=
  check_int4 id ;;
  do s <- get_store;
  put_store (with_tables s
    (filter (fun a => negb (Apartment.id a =? id)) (apartments s))
    (employees_tbl s)
    (filter (fun asg => negb (Assignment.apartment_id asg =? id)) (assignments s))).

(** [delete(employees).where(eq(employees.id, id))], with the cascade
    on [assignments.employee_id]. *)
Definition delete_employees (id : Z) : M unit :=
  check_int4 id ;;
  do s <- get_store;
  put_store (with_tables s (apartments s)
    (filter (fun e => negb (Employee.id e =? id)) (employees_tbl s))
    (filter (fun asg => negb (Assignment.employee_id asg =? id)) (assignments s))).

(* ------------------------------------------------------------------ *)
(** ** [DatabaseStorage] *)

(** The [options] argument of [getApartments]. *)
Record GetApartmentsOptions := mkOptions {
  sortBy : option string;
  search : option string
}.

(** [or(like(name, t), like(notes || '', t), like(status, t),
    like(payment_status, t))].  [apartments.notes] is a column object,
    always truthy, so [|| ''] leaves it as it is and a [NULL] note
    gives [NULL]. *)
Definition search_condition (searchTerm : string) (a : Apartment.t) : option bool :=
  sql_or (sql_or (sql_or (Some (like (Apartment.name a) searchTerm))
                         (option_map (fun n => like n searchTerm) (Apartment.notes a)))
                 (Some (like (Apartment.status a) searchTerm)))
         (Some (like (Apartment.payment_status a) searchTerm)).

(** [if (options?.search)]: only a non-empty string is truthy. *)
Definition search_filter (search : option string) (rows : list Apartment.t) : list Apartment.t :=
  match search with
  | Some s =>
      if String.eqb s "" then rows
      else let searchTerm := ("%" ++ s ++ "%")%string in
           filter (fun a => sql_true (search_condition searchTerm a)) rows
  | None => rows
  end.

(** The pattern [`%${search}%`] is a bound text: a NUL byte in it makes
    the query fail. *)
Definition bind_search (search : option string) : M unit :=
  match search with
  | Some q => if String.eqb q "" then ret tt else bind_texts [("%" ++ q ++ "%")%string]
  | None => ret tt
  end.

(** [options?.sortBy === 'name' ? asc(name) : desc(cleaning_date)]. *)
Definition order_for (sortBy : option string) : Apartment.t -> Apartment.t -> bool :=
  match sortBy with
  | Some v => if String.eqb v "name" then asc_by Apartment.name else desc_by Apartment.cleaning_date
  | None => desc_by Apartment.cleaning_date
  end.

Definition apartments_query (opts : GetApartmentsOptions) (s : store) : list Apartment.t :=
  sort_by (order_for (sortBy opts)) (search_filter (search opts) (apartments s)).

Definition getApartments (opts : GetApartmentsOptions) : M (list ApartmentWithAssignedEmployees) :=
  bind_search (search opts) ;;
  do s <- get_store;
  with_employees (apartments_query opts s).

(** [const [apartment] = ...; if (!apartment) return undefined]. *)
Definition getApartment (id : Z) : M (option ApartmentWithAssignedEmployees) :=
  do rows <- select_apartments_by_id id;
  match rows with
  | [] => ret None
  | apartment :: _ =>
      do emps <- getEmployeesForApartment id;
      ret (Some (mkAWE apartment emps))
  end.

(** The statements of [createApartment] that follow the insert of its
    row [result]: one assignment per staff id, in list order, then the
    row with its staff. *)
Definition createApartment_after_insert (result : Apartment.t) (employeeIds : list Z)
  : M ApartmentWithAssignedEmployees :=
  for_each (fun employeeId => do _ <- createAssignment (Apartment.id result) employeeId; ret tt)
           employeeIds ;;
  do emps <- getEmployeesForApartment (Apartment.id result);
  ret (mkAWE result emps).

Definition createApartment (a : InsertApartment.t) (employeeIds : list Z)
  : M ApartmentWithAssignedEmployees :=
  do result <- insert_apartment a;
  createApartment_after_insert result employeeIds.

Definition updateApartment (id : Z) (a : InsertApartment.t) (employeeIds : list Z)
  : M ApartmentWithAssignedEmployees :=
  update_apartment id a ;;
  deleteAssignmentsByApartment id ;;
  for_each (fun employeeId => do _ <- createAssignment id employeeId; ret tt) employeeIds ;;
  do updated <- getApartment id;
  match updated with
  | None => throw ("Apartment with id " ++ to_string id ++ " not found after update")%string
  | Some u => ret u
  end.

Definition deleteApartment (id : Z) : M unit := delete_apartments id.

Definition deleteEmployee (id : Z) : M unit := delete_employees id.

(** [getApartmentsByMonth]: the two bounds as strings. *)
Definition monthStart (year month : Z) : string :=
  (to_string year ++ "-" ++ pad_start_2 (to_string month) ++ "-01")%string.

Definition nextMonth (year month : Z) : string :=
  if month =? 12 then (to_string (year + 1) ++ "-01-01")%string
  else (to_string year ++ "-" ++ pad_start_2 (to_string (month + 1)) ++ "-01")%string.

(** [cleaning_date >= monthStart AND cleaning_date < nextMonth]. *)
Definition in_month (year month : Z) (a : Apartment.t) : bool :=
  str_le (monthStart year month) (Apartment.cleaning_date a)
  && str_lt (Apartment.cleaning_date a) (nextMonth year month).

(** [ORDER BY cleaning_date ASC, start_time ASC]. *)
Definition date_then_time (a b : Apartment.t) : bool :=
  str_lt (Apartment.cleaning_date a) (Apartment.cleaning_date b)
  || (String.eqb (Apartment.cleaning_date a) (Apartment.cleaning_date b)
      && asc_nulls_last (Apartment.start_time a) (Apartment.start_time b)).

Definition month_query (year month : Z) (s : store) : list Apartment.t :=
  sort_by date_then_time (filter (in_month year month) (apartments s)).

Definition getApartmentsByMonth (year month : Z) : M (list ApartmentWithAssignedEmployees) :=
  do s <- get_store;
  with_employees (month_query year month s).

(** [GROUP BY k] with [count(...)]: one group per distinct key. *)
Section Group.
Context {K : Type} (keqb : K -> K -> bool).

Fixpoint distinct (l : list K) : list K :=
    match l with
    | [] => []
    | x :: l' => let d := distinct l' in if existsb (keqb x) d then d else x :: d
    end.

Definition count_of (k : K) (l : list K) : Z := Z.of_nat (length (filter (keqb k) l)).

Definition group_count (l : list K) : list (K * Z) :=
    map (fun k => (k, count_of k l)) (distinct l).
End Group.

(** [ORDER BY count DESC LIMIT 3]. *)
Definition by_count_desc {K} (a b : K * Z) : bool := snd b <=? snd a.

Definition top3 {K} (groups : list (K * Z)) : list (K * Z) :=
  firstn 3 (sort_by by_count_desc groups).

(** JS [String.prototype.trim] on the ASCII white space. *)
Definition is_ws (c : ascii) : bool :=
  match nat_of_ascii c with
  | 9 | 10 | 11 | 12 | 13 | 32 => true
  | _ => false
  end%nat.

Fixpoint drop_ws (l : list ascii) : list ascii :=
  match l with
  | c :: l' => if is_ws c then drop_ws l' else l
  | [] => []
  end.

Definition trim (s : string) : string :=
  string_of_list_ascii (rev (drop_ws (rev (drop_ws (list_ascii_of_string s))))).

(** The grouping key of [topEmployeesResult]: [assignments.employee_id],
    [employees.first_name], [employees.last_name] (the last two [NULL]
    when the left join finds no employee). *)
Definition emp_key : Type := (Z * option string * option string)%type.

Definition emp_key_eqb (a b : emp_key) : bool :=
  match a, b with
  | (i, f, l), (i', f', l') =>
      (i =? i')
      && match f, f' with Some x, Some y => String.eqb x y | None, None => true | _, _ => false end
      && match l, l' with Some x, Some y => String.eqb x y | None, None => true | _, _ => false end
  end.

(** [assignments LEFT JOIN employees ON assignments.employee_id = employees.id]. *)
Definition assignments_left_join_employees (s : store) : list emp_key :=
  flat_map (fun asg =>
    match filter (fun e => Employee.id e =? Assignment.employee_id asg) (employees_tbl s) with
    | [] => [(Assignment.employee_id asg, None, None)]
    | es => map (fun e => (Assignment.employee_id asg, Some (Employee.first_name e),
                           Some (Employee.last_name e))) es
    end) (assignments s).

Definition top_employees_rows (s : store) : list (emp_key * Z) :=
  top3 (group_count emp_key_eqb (assignments_left_join_employees s)).

Definition busiest_days_rows (s : store) : list (string * Z) :=
  top3 (group_count String.eqb (map Apartment.cleaning_date (apartments s))).

Definition opt_or_empty (o : option string) : string :=
  match o with Some x => x | None => "" end.

(** [`${first_name || ''} ${last_name || ''}`.trim()]. *)
Definition employee_label (k : emp_key) : string :=
  match k with
  | (_, f, l) => trim (opt_or_empty f ++ " " ++ opt_or_empty l)%string
  end.

Record Statistics := mkStatistics {
  totalOrders : Z;
  topEmployees : list (string * Z);
  busiestDays : list (string * Z)
}.

Definition getStatistics : M Statistics :=
  do s <- get_store;
  ret (mkStatistics (Z.of_nat (length (apartments s)))
         (map (fun r => (employee_label (fst r), snd r)) (top_employees_rows s))
         (busiest_days_rows s)).

(* ------------------------------------------------------------------ *)
(** ** [DatabaseStorage]: the day view and the employees *)

(** [getApartmentsByDate]: the date as a string. *)
Definition date_of_day (year month day : Z) : string :=
  (to_string year ++ "-" ++ pad_start_2 (to_string month) ++ "-"
   ++ pad_start_2 (to_string day))%string.

(** [ORDER BY start_time ASC] ([NULL]s last). *)
Definition by_start_time (a b : Apartment.t) : bool :=
  asc_nulls_last (Apartment.start_time a) (Apartment.start_time b).

(** [WHERE cleaning_date = date ORDER BY start_time ASC]. *)
Definition day_query (year month day : Z) (s : store) : list Apartment.t :=
  sort_by by_start_time
    (filter (fun a => String.eqb (Apartment.cleaning_date a) (date_of_day year month day))
            (apartments s)).

Definition getApartmentsByDate (year month day : Z) : M (list ApartmentWithAssignedEmployees) :=
  do s <- get_store;
  with_employees (day_query year month day s).

(** The object [getApartmentsForEmployee] builds of a joined row: the
    columns of [apartments] but [user_id].  [end_time] is no column of
    the table in the schema: [result.apartments.end_time] is [undefined]
    and the key does not reach the JSON. *)
Module ApartmentFields.
Record t := mk {
    id : Z;
    name : string;
    cleaning_date : string;
    start_time : option string;
    status : string;
    payment_status : string;
    notes : option string;
    price : option Z
  }.
End ApartmentFields.

Definition apartment_fields (a : Apartment.t) : ApartmentFields.t :=
  ApartmentFields.mk (Apartment.id a) (Apartment.name a) (Apartment.cleaning_date a)
    (Apartment.start_time a) (Apartment.status a) (Apartment.payment_status a)
    (Apartment.notes a) (Apartment.price a).

(** [getApartmentsForEmployee]: [apartments INNER JOIN assignments ON
    assignments.apartment_id = apartments.id WHERE assignments.employee_id
    = employeeId], each joined row mapped to its apartment's fields. *)
Definition apartments_for_employee (s : store) (employeeId : Z) : list ApartmentFields.t :=
  flat_map (fun a =>
    map (fun _ => apartment_fields a)
      (filter (fun asg => (Assignment.apartment_id asg =? Apartment.id a)
                          && (Assignment.employee_id asg =? employeeId))
              (assignments s)))
    (apartments s).

Definition getApartmentsForEmployee (employeeId : Z) : M (list ApartmentFields.t) :=
  check_int4 employeeId ;;
  do s <- get_store;
  ret (apartments_for_employee s employeeId).

(** [EmployeeWithAssignedApartments]: the row and its [apartments]. *)
Record EmployeeWithAssignedApartments := mkEWA {
  employee : Employee.t;
  employee_apartments : list ApartmentFields.t
}.

(** [const apartments = await this.getApartmentsForEmployee(emp.id);
    results.push({...emp, apartments})] for each row. *)
Fixpoint with_apartments (rows : list Employee.t) : M (list EmployeeWithAssignedApartments) :=
  match rows with
  | [] => ret []
  | emp :: rows' =>
      do apts <- getApartmentsForEmployee (Employee.id emp);
      do rest <- with_apartments rows';
      ret (mkEWA emp apts :: rest)
  end.

(** [or(like(first_name, t), like(last_name, t))]; both columns are
    [NOT NULL]. *)
Definition employee_search_condition (searchTerm : string) (e : Employee.t) : option bool :=
  sql_or (Some (like (Employee.first_name e) searchTerm))
         (Some (like (Employee.last_name e) searchTerm)).

(** [if (options?.search)]: only a non-empty string is truthy. *)
Definition employee_search_filter (search : option string) (rows : list Employee.t) : list Employee.t :=
  match search with
  | Some s =>
      if String.eqb s "" then rows
      else let searchTerm := ("%" ++ s ++ "%")%string in
           filter (fun e => sql_true (employee_search_condition searchTerm e)) rows
  | None => rows
  end.

(** [orderBy(asc(last_name), asc(first_name))]. *)
Definition by_last_then_first (a b : Employee.t) : bool :=
  str_lt (Employee.last_name a) (Employee.last_name b)
  || (String.eqb (Employee.last_name a) (Employee.last_name b)
      && str_le (Employee.first_name a) (Employee.first_name b)).

Definition employees_query (search : option string) (s : store) : list Employee.t :=
  sort_by by_last_then_first (employee_search_filter search (employees_tbl s)).

(** [getEmployees(options)], with [options?.search] as the argument. *)
Definition getEmployees (search : option string) : M (list EmployeeWithAssignedApartments) :=
  bind_search search ;;
  do s <- get_store;
  with_apartments (employees_query search s).

(** [db.select().from(employees).where(eq(employees.id, id))]. *)
Definition select_employees_by_id (id : Z) : M (list Employee.t) :=
  check_int4 id ;;
  do s <- get_store;
  ret (filter (fun e => Employee.id e =? id) (employees_tbl s)).

(** [const [employee] = ...; if (!employee) return undefined]. *)
Definition getEmployee (id : Z) : M (option EmployeeWithAssignedApartments) :=
  do rows <- select_employees_by_id id;
  match rows with
  | [] => ret None
  | employee :: _ =>
      do apts <- getApartmentsForEmployee id;
      ret (Some (mkEWA employee apts))
  end.

(** [InsertEmployee]: [first_name] and [last_name]. *)
Module InsertEmployee.
Record t := mk {
    first_name : string;
    last_name : string
  }.
End InsertEmployee.

(** [insert(employees).values(employee).returning()]: the two names are
    bound, then the executor takes [nextval] for the id and checks the
    [NOT NULL] columns.  [user_id] is not among the keys of
    [InsertEmployee] and has no default, while [employees.user_id] is
    [NOT NULL] in the schema: the insert fails there. *)
Definition createEmployee (e : InsertEmployee.t) : M Employee.t :=
  bind_texts [InsertEmployee.first_name e; InsertEmployee.last_name e] ;;
  do s <- get_store;
  let id := employees_seq s in
  nextval id ;;
  put_store (mkStore (apartments s) (employees_tbl s) (assignments s)
                     (apartments_seq s) (id + 1) (assignments_seq s)) ;;
  throw "null value in column user_id of relation employees violates not-null constraint".

(* ------------------------------------------------------------------ *)
(** ** Routes ([registerRoutes]) *)

(** JS [parseInt(str)] without radix: leading white space, a sign,
    a [0x] prefix for base 16, then the longest run of digits; [NaN]
    ([None]) when there is no digit.  The value is kept exact. *)
Definition digit_value (c : ascii) : option Z :=
  let n := Z.of_nat (nat_of_ascii c) in
  if (48 <=? n) && (n <=? 57) then Some (n - 48)
  else if (97 <=? n) && (n <=? 102) then Some (n - 87)
  else if (65 <=? n) && (n <=? 70) then Some (n - 55)
  else None.

Fixpoint digits_run (radix acc : Z) (seen : bool) (l : list ascii) : option Z :=
  match l with
  | c :: l' =>
      match digit_value c with
      | Some d => if d <? radix then digits_run radix (acc * radix + d) true l'
                  else if seen then Some acc else None
      | None => if seen then Some acc else None
      end
  | [] => if seen then Some acc else None
  end.

Definition parse_unsigned (l : list ascii) : option Z :=
  match l with
  | "0"%char :: ("x"|"X")%char :: l' => digits_run 16 0 false l'
  | _ => digits_run 10 0 false l
  end.

Definition parseInt (str : string) : option Z :=
  match drop_ws (list_ascii_of_string str) with
  | "-"%char :: l => option_map Z.opp (parse_unsigned l)
  | "+"%char :: l => parse_unsigned l
  | l => parse_unsigned l
  end.

(** The body of an Express response: a JSON message, a record or a list
    of records, nothing. *)
Inductive body :=
| Message (m : string)
| ApartmentBody (a : ApartmentWithAssignedEmployees)
| ApartmentsBody (l : list ApartmentWithAssignedEmployees)
| EmployeeBody (e : Employee.t)
| EmployeeWithApartmentsBody (e : EmployeeWithAssignedApartments)
| EmployeesBody (l : list EmployeeWithAssignedApartments)
| StatisticsBody (st : Statistics)
| NoBody.

Record response := mkResponse { status_code : Z; resp_body : body }.

(** Outcome of [apartmentWithEmployeesSchema.safeParse(req.body)]. *)
Inductive validation :=
| Invalid (errorMessage : string)
| Valid (apartmentData : InsertApartment.t) (employee_ids : option (list Z)).

(** A value of [req.query] as Express's query parser builds it: a string,
    an array ([?k=a&k=b]) or an object ([?k[x]=a]), whose keys are kept as
    given, [toString] included. *)
#[warnings="-register-all"]
Inductive qvalue :=
| QStr (s : string)
| QArr (l : list qvalue)
| QObj (fields : list (string * qvalue)).

(** JS [ToString] of such a value, as a template literal applies it: an
    array joins its elements with a comma; an object with an own
    [toString] key has no callable [toString], and [valueOf] gives no
    primitive: a [TypeError] ([None]); other objects give
    [[object Object]]. *)
Fixpoint js_to_string (v : qvalue) : option string :=
  match v with
  | QStr t => Some t
  | QArr l =>
      (fix join (l : list qvalue) : option string :=
         match l with
         | [] => Some ""%string
         | [x] => js_to_string x
         | x :: l' =>
             match js_to_string x, join l' with
             | Some a, Some b => Some (a ++ "," ++ b)%string
             | _, _ => None
             end
         end) l
  | QObj fs =>
      if existsb (fun kv => String.eqb (fst kv) "toString") fs then None
      else Some "[object Object]"%string
  end.

(** JS truthiness: of these values only the empty string is falsy. *)
Definition js_truthy (v : qvalue) : bool :=
  match v with
  | QStr t => negb (String.eqb t "")
  | _ => true
  end.

(** [if (options?.search)] and [`%${options.search}%`] in [getApartments]
    and [getEmployees], on the value the route passes: [Throw] when the
    template literal raises, which rejects the call before any query;
    otherwise the search string.  A truthy value that converts to the
    empty string (an array of empty strings) gives the pattern ['%%'],
    which every name matches: the rows are those of no search, and the
    string passed is [""] ([empty_pattern_keeps_all]). *)
Definition js_search (v : option qvalue) : outcome (option string) :=
  match v with
  | None => Ok None
  | Some x =>
      if js_truthy x then
        match js_to_string x with
        | Some t => Ok (Some t)
        | None => Throw "TypeError: Cannot convert object to primitive value"
        end
      else Ok (Some ""%string)
  end.

(** [options?.sortBy === 'name']: only a string can be equal to it. *)
Definition js_sort (v : option qvalue) : option string :=
  match v with
  | Some (QStr t) => Some t
  | _ => None
  end.

(** Run a storage call, as [await] in a [try] block. *)
Definition run {A} (m : M A) (s : store) : outcome A * store := m s.

(** [router.put("/apartments/:id", ...)]. *)
Definition put_apartment (param : string) (v : validation) (s : store) : response * store :=
  match parseInt param with
  | None => (mkResponse 400 (Message "Invalid apartment ID"), s)
  | Some id =>
      match v with
      | Invalid msg => (mkResponse 400 (Message msg), s)
      | Valid apartmentData employee_ids =>
          let ids := match employee_ids with Some l => l | None => [] end in
          match run (updateApartment id apartmentData ids) s with
          | (Ok apartment, s') => (mkResponse 200 (ApartmentBody apartment), s')
          | (Throw _, s') => (mkResponse 500 (Message "Error updating apartment"), s')
          end
      end
  end.

(** [router.get("/apartments/:id", ...)]. *)
Definition get_apartment_route (param : string) (s : store) : response * store :=
  match parseInt param with
  | None => (mkResponse 400 (Message "Invalid apartment ID"), s)
  | Some id =>
      match run (getApartment id) s with
      | (Ok (Some apartment), s') => (mkResponse 200 (ApartmentBody apartment), s')
      | (Ok None, s') => (mkResponse 404 (Message "Apartment not found"), s')
      | (Throw _, s') => (mkResponse 500 (Message "Error fetching apartment"), s')
      end
  end.


(** [router.get("/apartments", ...)]: [req.query.sortBy] and
    [req.query.search] as the query parser gives them ([as string] does
    nothing at run time). *)
Definition get_apartments_route (sortBy search : option qvalue) (s : store) : response * store :=
  match js_search search with
  | Throw _ => (mkResponse 500 (Message "Error fetching apartments"), s)
  | Ok q =>
      match run (getApartments (mkOptions (js_sort sortBy) q)) s with
      | (Ok apartments, s') => (mkResponse 200 (ApartmentsBody apartments), s')
      | (Throw _, s') => (mkResponse 500 (Message "Error fetching apartments"), s')
      end
  end.

(** [router.post("/apartments", ...)]. *)
Definition post_apartment (v : validation) (s : store) : response * store :=
  match v with
  | Invalid msg => (mkResponse 400 (Message msg), s)
  | Valid apartmentData employee_ids =>
      let ids := match employee_ids with Some l => l | None => [] end in
      match run (createApartment apartmentData ids) s with
      | (Ok apartment, s') => (mkResponse 201 (ApartmentBody apartment), s')
      | (Throw _, s') => (mkResponse 500 (Message "Error creating apartment"), s')
      end
  end.

(** [router.get("/employees", ...)]: [req.query.search] as the query
    parser gives it. *)
Definition get_employees_route (search : option qvalue) (s : store) : response * store :=
  match js_search search with
  | Throw _ => (mkResponse 500 (Message "Error fetching employees"), s)
  | Ok q =>
      match run (getEmployees q) s with
      | (Ok employees, s') => (mkResponse 200 (EmployeesBody employees), s')
      | (Throw _, s') => (mkResponse 500 (Message "Error fetching employees"), s')
      end
  end.

(** [router.get("/employees/:id", ...)]. *)
Definition get_employee_route (param : string) (s : store) : response * store :=
  match parseInt param with
  | None => (mkResponse 400 (Message "Invalid employee ID"), s)
  | Some id =>
      match run (getEmployee id) s with
      | (Ok (Some employee), s') => (mkResponse 200 (EmployeeWithApartmentsBody employee), s')
      | (Ok None, s') => (mkResponse 404 (Message "Employee not found"), s')
      | (Throw _, s') => (mkResponse 500 (Message "Error fetching employee"), s')
      end
  end.

(** Outcome of [insertEmployeeSchema.safeParse(req.body)]. *)
Inductive employee_validation :=
| InvalidEmployee (errorMessage : string)
| ValidEmployee (data : InsertEmployee.t).

(** [router.post("/employees", ...)]. *)
Definition post_employee (v : employee_validation) (s : store) : response * store :=
  match v with
  | InvalidEmployee msg => (mkResponse 400 (Message msg), s)
  | ValidEmployee data =>
      match run (createEmployee data) s with
      | (Ok employee, s') => (mkResponse 201 (EmployeeBody employee), s')
      | (Throw _, s') => (mkResponse 500 (Message "Error creating employee"), s')
      end
  end.


(** [router.get("/calendar/:year/:month", ...)]. *)
Definition calendar_month_route (pyear pmonth : string) (s : store) : response * store :=
  match parseInt pyear, parseInt pmonth with
  | Some year, Some month =>
      if (month <? 1) || (month >? 12) then (mkResponse 400 (Message "Invalid year or month"), s)
      else
        match run (getApartmentsByMonth year month) s with
        | (Ok apartments, s') => (mkResponse 200 (ApartmentsBody apartments), s')
        | (Throw _, s') => (mkResponse 500 (Message "Error fetching calendar data"), s')
        end
  | _, _ => (mkResponse 400 (Message "Invalid year or month"), s)
  end.

(** [router.get("/calendar/:year/:month/:day", ...)]. *)
Definition calendar_day_route (pyear pmonth pday : string) (s : store) : response * store :=
  match parseInt pyear, parseInt pmonth, parseInt pday with
  | Some year, Some month, Some day =>
      if (month <? 1) || (month >? 12) || (day <? 1) || (day >? 31)
      then (mkResponse 400 (Message "Invalid date"), s)
      else
        match run (getApartmentsByDate year month day) s with
        | (Ok apartments, s') => (mkResponse 200 (ApartmentsBody apartments), s')
        | (Throw _, s') => (mkResponse 500 (Message "Error fetching calendar day data"), s')
        end
  | _, _, _ => (mkResponse 400 (Message "Invalid date"), s)
  end.

(** [router.get("/statistics", ...)]. *)
Definition statistics_route (s : store) : response * store :=
  match run getStatistics s with
  | (Ok stats, s') => (mkResponse 200 (StatisticsBody stats), s')
  | (Throw _, s') => (mkResponse 500 (Message "Error fetching statistics"), s')
  end.

(* ------------------------------------------------------------------ *)
(** ** Database invariants *)

Fixpoint nodupb {A} (eqb : A -> A -> bool) (l : list A) : bool :=
  match l with
  | [] => true
  | x :: l' => negb (existsb (eqb x) l') && nodupb eqb l'
  end.

Definition pair_eqb (a b : Z * Z) : bool := (fst a =? fst b) && (snd a =? snd b).

Definition asg_pair (asg : Assignment.t) : Z * Z :=
  (Assignment.apartment_id asg, Assignment.employee_id asg).

Definition apartment_exists (s : store) (id : Z) : bool :=
  existsb (fun a => Apartment.id a =? id) (apartments s).

Definition employee_exists (s : store) (id : Z) : bool :=
  existsb (fun e => Employee.id e =? id) (employees_tbl s).

(** What the schema guarantees of a stored database: primary keys of
    [integer] values, unique and behind their sequence; the foreign keys
    of [assignments]; its unique (apartment, employee) pair. *)
Definition wf_store (s : store) : bool :=
  forallb (fun a => int4_ok (Apartment.id a) && (Apartment.id a <? apartments_seq s)) (apartments s)
  && nodupb Z.eqb (map Apartment.id (apartments s))
  && forallb (fun e => int4_ok (Employee.id e) && (Employee.id e <? employees_seq s)) (employees_tbl s)
  && nodupb Z.eqb (map Employee.id (employees_tbl s))
  && forallb (fun asg => apartment_exists s (Assignment.apartment_id asg)
                         && employee_exists s (Assignment.employee_id asg)) (assignments s)
  && nodupb pair_eqb (map asg_pair (assignments s)).

(** The (apartment, employee) pairs of the Assignments of one apartment. *)
Definition staff_of (s : store) (apartmentId : Z) : list Z :=
  map Assignment.employee_id
    (filter (fun asg => Assignment.apartment_id asg =? apartmentId) (assignments s)).

(* ------------------------------------------------------------------ *)
(** ** An example database *)

Definition flat_3b : Apartment.t :=
  Apartment.mk 1 "Flat 3B" "2024-06-01" (Some "09:00"%string) "Da Fare" "Da Pagare"
    (Some "Mario's flat"%string) (Some 5000) (Some 1).
Definition attico : Apartment.t :=
  Apartment.mk 2 "Attico Rossi" "2024-12-31" None "Fatto" "Pagato" None None (Some 2).
Definition bilocale : Apartment.t :=
  Apartment.mk 3 "Bilocale" "2025-01-01" (Some "14:30"%string) "In Corso" "Da Pagare"
    (Some "chiavi dal portiere"%string) None (Some 1).
Definition anna : Employee.t := Employee.mk 1 "Anna" "Bianchi" (Some 1).
Definition mario : Employee.t := Employee.mk 2 "Mario" "Verdi" (Some 1).

Definition example_store : store :=
  mkStore [flat_3b; attico; bilocale] [anna; mario]
    [Assignment.mk 1 1 1; Assignment.mk 2 1 2; Assignment.mk 3 3 1] 4 3 4.

(** A request body for an apartment. *)
Definition flat_payload : InsertApartment.t :=
  InsertApartment.mk "Flat 3B" "2024-06-01" None None None None None.

(* ------------------------------------------------------------------ *)
(** ** Substrings *)

(** [q] is a prefix of [t], byte for byte. *)
Fixpoint prefixb (q t : list ascii) : bool :=
  match q, t with
  | [], _ => true
  | c :: q', c' :: t' => ascii_eqb c c' && prefixb q' t'
  | _ :: _, [] => false
  end.

(** [q] occurs in [t] at some position. *)
Fixpoint is_substring (q t : list ascii) : bool :=
  prefixb q t || match t with [] => false | _ :: t' => is_substring q t' end.

Definition contains (t q : string) : bool :=
  is_substring (list_ascii_of_string q) (list_ascii_of_string t).

(** A search string with none of the characters [LIKE] gives a meaning to. *)
Definition plain (q : string) : bool :=
  forallb (fun c => negb (ascii_eqb c "%" || ascii_eqb c "_" || ascii_eqb c "\"))
          (list_ascii_of_string q).




(* ------------------------------------------------------------------ *)
(** ** Calendar dates *)

(** A decimal digit. *)
Definition dec_digit (c : ascii) : option Z :=
  let n := Z.of_nat (nat_of_ascii c) in
  if (48 <=? n) && (n <=? 57) then Some (n - 48) else None.

(** The (year, month, day) of a ['YYYY-MM-DD'] text, the format of
    [cleaning_date]. *)
Definition iso_date (s : string) : option (Z * Z * Z) :=
  match s with
  | String y1 (String y2 (String y3 (String y4 (String s1
      (String m1 (String m2 (String s2 (String d1 (String d2 EmptyString))))))))) =>
      match dec_digit y1, dec_digit y2, dec_digit y3, dec_digit y4,
            dec_digit m1, dec_digit m2, dec_digit d1, dec_digit d2 with
      | Some a1, Some a2, Some a3, Some a4, Some b1, Some b2, Some c1, Some c2 =>
          if ascii_eqb s1 "-" && ascii_eqb s2 "-"
          then Some (a1 * 1000 + a2 * 100 + a3 * 10 + a4, b1 * 10 + b2, c1 * 10 + c2)
          else None
      | _, _, _, _, _, _, _, _ => None
      end
  | _ => None
  end.

(** Calendar order on (year, month, day). *)
Definition date_compare (x y : Z * Z * Z) : comparison :=
  let '(Y, M, D) := x in
  let '(Y', M', D') := y in
  match Z.compare Y Y' with
  | Eq => match Z.compare M M' with Eq => Z.compare D D' | c => c end
  | c => c
  end.

Definition date_leb (x y : Z * Z * Z) : bool :=
  match date_compare x y with Gt => false | _ => true end.

Definition date_ltb (x y : Z * Z * Z) : bool :=
  match date_compare x y with Lt => true | _ => false end.

(** The first day of the month after [month] of [year]. *)
Definition next_month_date (year month : Z) : Z * Z * Z :=
  if month =? 12 then (year + 1, 1, 1) else (year, month + 1, 1).

(** The date [str] lies in [[year-month-01, next month's first day)]. *)
Definition in_calendar_month (year month : Z) (str : string) : bool :=
  match iso_date str with
  | Some d => date_leb (year, month, 1) d && date_ltb d (next_month_date year month)
  | None => false
  end.

Definition opt_date_eqb (o : option (Z * Z * Z)) (d : Z * Z * Z) : bool :=
  match o, d with
  | Some (a, b, c), (a', b', c') => (a =? a') && (b =? b') && (c =? c')
  | None, _ => false
  end.



(* ------------------------------------------------------------------ *)
(** ** The claims as the spec words them, and auxiliary notions *)

Record wf_props (s : store) : Prop := {
  wf_apt_ids : forall a, In a (apartments s) ->
                 int4_ok (Apartment.id a) = true /\ Apartment.id a < apartments_seq s;
  wf_apt_nodup : NoDup (map Apartment.id (apartments s));
  wf_emp_ids : forall e, In e (employees_tbl s) ->
                 int4_ok (Employee.id e) = true /\ Employee.id e < employees_seq s;
  wf_emp_nodup : NoDup (map Employee.id (employees_tbl s));
  wf_fk : forall asg, In asg (assignments s) ->
            apartment_exists s (Assignment.apartment_id asg) = true /\
            employee_exists s (Assignment.employee_id asg) = true;
  wf_pairs_nodup : NoDup (map asg_pair (assignments s))
}.



(** A statement leaves the ids of the apartment rows as they were. *)
Definition keeps_ids {A} (m : M A) : Prop :=
  forall s o s', m s = (o, s') -> map Apartment.id (apartments s') = map Apartment.id (apartments s).

(** The store after [nextval] on the assignments sequence. *)
Definition bump_assignments_seq (s : store) : store :=
  mkStore (apartments s) (employees_tbl s) (assignments s)
          (apartments_seq s) (employees_seq s) (assignments_seq s + 1).

(** The pair (apartment [a], employee [e]) is already stored. *)
Definition pair_stored (s : store) (a e : Z) : bool :=
  existsb (fun asg => (Assignment.apartment_id asg =? a) && (Assignment.employee_id asg =? e))
          (assignments s).

(** The loop over the staff ids in [createApartment] and [updateApartment]. *)
Definition assign_loop (apartmentId : Z) (employeeIds : list Z) : M unit :=
  for_each (fun employeeId => do _ <- createAssignment apartmentId employeeId; ret tt) employeeIds.

(** The claim C3 as the spec words it, for every list of staff ids. *)
Definition update_replaces_for_every_list : Prop :=
  forall s id a L, wf_store s = true -> apartment_exists s id = true ->
    price_of_payload a <> None ->
    (forall e, In e L -> employee_exists s e = true) ->
    exists r s', updateApartment id a L s = (Ok r, s') /\
      (forall e, In e (staff_of s' id) <-> In e L).

(** The claim C6 as the spec words it: any list of staff ids, duplicates
    collapsed. *)
Definition create_collapses_duplicates : Prop :=
  forall s a L, wf_store s = true -> price_of_payload a <> None ->
    (forall e, In e L -> employee_exists s e = true) ->
    exists r s', createApartment a L s = (Ok r, s') /\
      getApartment (Apartment.id (apartment r)) s' = (Ok (Some r), s') /\
      (forall x, In x (map EmployeeName.id (employees r)) <-> In x L).





(** Value of the digits of a decimal numeral, read left to right from [acc]. *)
Fixpoint uint_value (u : Decimal.uint) (acc : Z) : Z :=
  match u with
  | Decimal.Nil => acc
  | Decimal.D0 u' => uint_value u' (acc * 10 + 0)
  | Decimal.D1 u' => uint_value u' (acc * 10 + 1)
  | Decimal.D2 u' => uint_value u' (acc * 10 + 2)
  | Decimal.D3 u' => uint_value u' (acc * 10 + 3)
  | Decimal.D4 u' => uint_value u' (acc * 10 + 4)
  | Decimal.D5 u' => uint_value u' (acc * 10 + 5)
  | Decimal.D6 u' => uint_value u' (acc * 10 + 6)
  | Decimal.D7 u' => uint_value u' (acc * 10 + 7)
  | Decimal.D8 u' => uint_value u' (acc * 10 + 8)
  | Decimal.D9 u' => uint_value u' (acc * 10 + 9)
  end.

(** A statement that leaves the store as it found it. *)
Definition reads {A} (m : M A) : Prop := forall s o s', m s = (o, s') -> s' = s.

(** A statement that keeps the integrity constraints of the tables. *)
Definition keeps_wf {A} (m : M A) : Prop :=
  forall s o s', wf_store s = true -> m s = (o, s') -> wf_store s' = true.

(** A payload whose price does not fit [numeric(10,2)]. *)
Definition overflow_payload : InsertApartment.t :=
  InsertApartment.mk "Penthouse" "2024-06-01" None None None None
    (Some (Some (mkDecimal 100000000000 0))).

(** A search that the query can bind: absent, empty, or free of NUL bytes. *)
Definition search_bindable (search : option string) : bool :=
  match search with
  | Some q => String.eqb q "" || negb (has_nul q)
  | None => true
  end.


(* ================================================================== *)
(** * Proofs *)

(** ** The monad and the sort *)

Lemma bind_ok {A B} (m : M A) (f : A -> M B) s a s' :
  m s = (Ok a, s') -> bind m f s = f a s'.
Proof. unfold bind; intros ->; reflexivity. Qed.

Lemma bind_throw {A B} (m : M A) (f : A -> M B) s e s' :
  m s = (Throw e, s') -> bind m f s = (Throw e, s').
Proof. unfold bind; intros ->; reflexivity. Qed.

Lemma check_int4_ok z s : int4_ok z = true -> check_int4 z s = (Ok tt, s).
Proof. unfold check_int4; intros ->; reflexivity. Qed.

Lemma nextval_ok z s : int4_ok z = true -> nextval z s = (Ok tt, s).
Proof. unfold nextval; intros ->; reflexivity. Qed.

Lemma bind_texts_state ts s o s' : bind_texts ts s = (o, s') -> s' = s.
Proof.
  unfold bind_texts, ret, throw. destruct (existsb has_nul ts); intros H; inversion H; reflexivity.
Qed.

Lemma bind_texts_ok ts s : existsb has_nul ts = false -> bind_texts ts s = (Ok tt, s).
Proof. unfold bind_texts; intros ->; reflexivity. Qed.

Lemma bind_texts_fails ts s :
  existsb has_nul ts = true ->
  bind_texts ts s = (Throw "invalid byte sequence for encoding UTF8: 0x00", s).
Proof. unfold bind_texts; intros ->; reflexivity. Qed.

Lemma has_nul_app a b : has_nul (a ++ b)%string = has_nul a || has_nul b.
Proof.
  unfold has_nul. induction a as [|c a IH]; [reflexivity|]. simpl. rewrite IH. apply orb_assoc.
Qed.

Lemma has_nul_pattern q : has_nul (String "%" (q ++ "%")) = has_nul q.
Proof.
  change (String "%" (q ++ "%")) with ("%" ++ (q ++ "%"))%string.
  rewrite !has_nul_app. change (has_nul "%") with false. rewrite orb_false_r. reflexivity.
Qed.

Lemma bind_search_state search s o s' : bind_search search s = (o, s') -> s' = s.
Proof.
  unfold bind_search, ret. destruct search as [q|]; [destruct (String.eqb q "")|];
    intros H; try (inversion H; reflexivity). exact (bind_texts_state _ _ _ _ H).
Qed.

Lemma bind_search_ok search s :
  search_bindable search = true -> bind_search search s = (Ok tt, s).
Proof.
  unfold search_bindable, bind_search. destruct search as [q|]; [|reflexivity].
  destruct (String.eqb q "") eqn:E; [reflexivity|]. simpl. intros H.
  apply bind_texts_ok. cbn [existsb]. rewrite has_nul_pattern. apply negb_true_iff in H.
  rewrite H. reflexivity.
Qed.

Lemma bind_search_fails search s :
  search_bindable search = false -> exists msg, bind_search search s = (Throw msg, s).
Proof.
  unfold search_bindable, bind_search. destruct search as [q|]; [|discriminate].
  destruct (String.eqb q "") eqn:E; [discriminate|]. simpl. intros H.
  eexists. apply bind_texts_fails. cbn [existsb]. rewrite has_nul_pattern.
  apply negb_false_iff in H. rewrite H. reflexivity.
Qed.

Lemma like_match_one_percent t : like_match ["%"%char] t = true.
Proof. induction t as [|c t IH]; [reflexivity|]. simpl. exact IH. Qed.

(** The pattern ['%%'] matches every text: with it the search keeps every
    apartment (its [name] is [NOT NULL]) and every employee. *)
Lemma empty_pattern_keeps_all :
  (forall a, sql_true (search_condition "%%" a) = true) /\
  (forall e, sql_true (employee_search_condition "%%" e) = true).
Proof.
  assert (Hl : forall t, like t "%%" = true).
  { intros t. unfold like. destruct (list_ascii_of_string t) as [|c l]; simpl;
      rewrite ?like_match_one_percent; reflexivity. }
  split; intros x.
  - unfold search_condition. rewrite Hl. destruct (option_map _ _) as [[]|]; reflexivity.
  - unfold employee_search_condition. rewrite Hl. reflexivity.
Qed.

Section SortFacts.
Context {A : Type} (le : A -> A -> bool).

Lemma insert_by_perm x l : Permutation (insert_by le x l) (x :: l).
  Proof.
    induction l as [|y l IH]; simpl; [reflexivity|].
    destruct (le x y); [reflexivity|].
    rewrite IH. apply perm_swap.
  Qed.

Lemma sort_by_perm l : Permutation (sort_by le l) l.
  Proof.
    induction l as [|x l IH]; simpl; [reflexivity|].
    rewrite insert_by_perm. now constructor.
  Qed.

Hypothesis le_total : forall a b, le a b = false -> le b a = true.

Lemma insert_by_hd z x l :
    HdRel (fun a b => le a b = true) z l -> le z x = true ->
    HdRel (fun a b => le a b = true) z (insert_by le x l).
  Proof.
    destruct l as [|y l]; simpl; intros Hd Hzx; [now constructor|].
    destruct (le x y); constructor; auto. now inversion Hd.
  Qed.

Lemma insert_by_sorted x l :
    Sorted (fun a b => le a b = true) l -> Sorted (fun a b => le a b = true) (insert_by le x l).
  Proof.
    induction l as [|y l IH]; simpl; intros Hs; [now repeat constructor|].
    destruct (le x y) eqn:Hxy.
    - constructor; [exact Hs | now constructor].
    - inversion Hs as [|? ? Hs' Hd]; subst.
      constructor; [now apply IH|].
      apply insert_by_hd; [exact Hd | now apply le_total].
  Qed.

Lemma sort_by_sorted l : Sorted (fun a b => le a b = true) (sort_by le l).
  Proof.
    induction l as [|x l IH]; simpl; [constructor|].
    now apply insert_by_sorted.
  Qed.
End SortFacts.

Lemma str_le_total a b : str_le a b = false -> str_le b a = true.
Proof.
  unfold str_le; intros H. destruct (String.leb_total a b) as [H'|H']; congruence.
Qed.

(** ** Reading the employees of the rows *)

Lemma with_employees_ok rows s :
  forallb (fun a => int4_ok (Apartment.id a)) rows = true ->
  with_employees rows s =
    (Ok (map (fun a => mkAWE a (employees_for_apartment s (Apartment.id a))) rows), s).
Proof.
  induction rows as [|a rows IH]; simpl; intros H; [reflexivity|].
  apply andb_prop in H as [H1 H2].
  unfold bind, getEmployeesForApartment, check_int4. rewrite H1.
  simpl. rewrite (IH H2). reflexivity.
Qed.

Lemma with_employees_result rows s res s' :
  with_employees rows s = (Ok res, s') -> map apartment res = rows /\ s' = s.
Proof.
  revert res s'.
  induction rows as [|a rows IH]; simpl; intros res s' H.
  - inversion H; subst. auto.
  - unfold bind, getEmployeesForApartment, check_int4 in H.
    destruct (int4_ok (Apartment.id a)); [|discriminate].
    simpl in H. destruct (with_employees rows s) as [[r|e] s1] eqn:Hw in H; [|discriminate].
    unfold ret in H. inversion H; subst. destruct (IH _ _ Hw) as [Hm ->].
    simpl. rewrite Hm. auto.
Qed.


(** ** The invariants as propositions *)

Lemma nodupb_NoDup {A} (eqb : A -> A -> bool) l :
  (forall x y, eqb x y = true <-> x = y) -> nodupb eqb l = true -> NoDup l.
Proof.
  intros Heq. induction l as [|x l IH]; simpl; intros H; [constructor|].
  apply andb_prop in H as [H1 H2]. constructor; [|now apply IH].
  intros Hin. apply negb_true_iff in H1.
  assert (existsb (eqb x) l = true) by (apply existsb_exists; exists x; split; [exact Hin | now apply Heq]).
  congruence.
Qed.

Lemma pair_eqb_eq a b : pair_eqb a b = true <-> a = b.
Proof.
  destruct a as [a1 a2], b as [b1 b2]; unfold pair_eqb; simpl.
  rewrite andb_true_iff, !Z.eqb_eq. split; [intros [-> ->]; reflexivity | intros H; inversion H; auto].
Qed.

Lemma Z_eqb_iff x y : (x =? y) = true <-> x = y.
Proof. apply Z.eqb_eq. Qed.

Lemma wf_store_props s : wf_store s = true -> wf_props s.
Proof.
  unfold wf_store. rewrite !andb_true_iff, !forallb_forall.
  intros [[[[[H1 H2] H3] H4] H5] H6]. constructor.
  - intros a Ha. specialize (H1 a Ha). rewrite andb_true_iff, Z.ltb_lt in H1. exact H1.
  - exact (nodupb_NoDup _ _ Z_eqb_iff H2).
  - intros e He. specialize (H3 e He). rewrite andb_true_iff, Z.ltb_lt in H3. exact H3.
  - exact (nodupb_NoDup _ _ Z_eqb_iff H4).
  - intros asg Ha. specialize (H5 asg Ha). now rewrite andb_true_iff in H5.
  - exact (nodupb_NoDup _ _ pair_eqb_eq H6).
Qed.

Lemma apartment_exists_iff s id :
  apartment_exists s id = true <-> exists a, In a (apartments s) /\ Apartment.id a = id.
Proof.
  unfold apartment_exists. rewrite existsb_exists.
  split; intros [a [H1 H2]]; exists a; split; auto; now apply Z.eqb_eq.
Qed.

Lemma employee_exists_iff s id :
  employee_exists s id = true <-> exists e, In e (employees_tbl s) /\ Employee.id e = id.
Proof.
  unfold employee_exists. rewrite existsb_exists.
  split; intros [e [H1 H2]]; exists e; split; auto; now apply Z.eqb_eq.
Qed.

(** With unique ids, selecting by id finds exactly the row. *)
Lemma filter_unique_id {A} (key : A -> Z) l a :
  NoDup (map key l) -> In a l -> filter (fun x => key x =? key a) l = [a].
Proof.
  induction l as [|x l IH]; simpl; intros Hnd Hin; [contradiction|].
  inversion Hnd as [|? ? Hnotin Hnd']; subst.
  destruct Hin as [->|Hin].
  - rewrite Z.eqb_refl. f_equal.
    assert (Hall : forall y, In y l -> (key y =? key a) = false).
    { intros y Hy. apply Z.eqb_neq. intros He. apply Hnotin. rewrite <- He. now apply in_map. }
    clear - Hall. induction l as [|y l IH]; simpl; [reflexivity|].
    rewrite Hall by (left; reflexivity). apply IH. intros z Hz. apply Hall. now right.
  - destruct (key x =? key a) eqn:E.
    + apply Z.eqb_eq in E. exfalso. apply Hnotin. rewrite E. now apply in_map.
    + now apply IH.
Qed.

Lemma filter_none_id {A} (key : A -> Z) l id :
  existsb (fun x => key x =? id) l = false -> filter (fun x => key x =? id) l = [].
Proof.
  induction l as [|x l IH]; simpl; [reflexivity|].
  destruct (key x =? id); simpl; [discriminate|]. exact IH.
Qed.

(** ** Reading one apartment *)


Lemma getApartment_missing s id :
  int4_ok id = true -> apartment_exists s id = false -> getApartment id s = (Ok None, s).
Proof.
  intros Hint Hex.
  unfold getApartment, select_apartments_by_id, bind, check_int4. rewrite Hint. simpl.
  unfold apartment_exists in Hex. rewrite (filter_none_id Apartment.id _ _ Hex). reflexivity.
Qed.

(* ------------------------------------------------------------------ *)
(** ** Listing apartments: no owner, search, order *)

Lemma getApartments_rows opts s res s' :
  getApartments opts s = (Ok res, s') ->
  map apartment res = apartments_query opts s /\ s' = s.
Proof.
  unfold getApartments, bind. destruct (bind_search (search opts) s) as [o s1] eqn:E.
  apply bind_search_state in E. subst s1. destruct o as [[]|e]; [|discriminate].
  unfold get_store. apply with_employees_result.
Qed.

(** C9: [getApartments] returns the (searched) rows, sorted by
    [cleaning_date] descending unless [sortBy] is ["name"], and by [name]
    ascending when it is. *)
Theorem getApartments_order opts s res s' :
  getApartments opts s = (Ok res, s') ->
  Permutation (map apartment res) (search_filter (search opts) (apartments s)) /\
  (sortBy opts <> Some "name"%string ->
     Sorted (fun a b => str_le (Apartment.cleaning_date b) (Apartment.cleaning_date a) = true)
            (map apartment res)) /\
  (sortBy opts = Some "name"%string ->
     Sorted (fun a b => str_le (Apartment.name a) (Apartment.name b) = true) (map apartment res)).
Proof.
  intros H. destruct (getApartments_rows _ _ _ _ H) as [Hrows _].
  rewrite Hrows. unfold apartments_query. split; [apply sort_by_perm|]. split.
  - intros Hsb.
    assert (Ho : order_for (sortBy opts) = desc_by Apartment.cleaning_date).
    { unfold order_for. destruct (sortBy opts) as [v|]; [|reflexivity].
      destruct (String.eqb v "name") eqn:E; [|reflexivity].
      apply String.eqb_eq in E. subst. contradiction. }
    rewrite Ho. apply sort_by_sorted. intros a b. unfold desc_by. apply str_le_total.
  - intros Hsb. rewrite Hsb. simpl.
    apply sort_by_sorted. intros a b. unfold asc_by. apply str_le_total.
Qed.

Lemma getApartments_order_witness :
  exists res s', getApartments (mkOptions None None) example_store = (Ok res, s') /\
  (Permutation (map apartment res) (search_filter None (apartments example_store)) /\
  (None <> Some "name"%string ->
     Sorted (fun a b => str_le (Apartment.cleaning_date b) (Apartment.cleaning_date a) = true)
            (map apartment res)) /\
  (None = Some "name"%string ->
     Sorted (fun a b => str_le (Apartment.name a) (Apartment.name b) = true) (map apartment res))).
Proof.
  do 2 eexists. split; [reflexivity|].
  apply (getApartments_order (mkOptions None None) example_store _ example_store). reflexivity.
Defined.




(* ------------------------------------------------------------------ *)
(** ** Deleting an apartment *)

Lemma filter_all_true {A} (f : A -> bool) l :
  (forall x, In x l -> f x = true) -> filter f l = l.
Proof.
  induction l as [|x l IH]; simpl; intros H; [reflexivity|].
  rewrite H by (left; reflexivity). f_equal. apply IH. intros y Hy. apply H. now right.
Qed.

Lemma with_tables_same s : with_tables s (apartments s) (employees_tbl s) (assignments s) = s.
Proof. destruct s; reflexivity. Qed.





(* ------------------------------------------------------------------ *)
(** ** Statements that keep the apartment ids *)

Lemma bind_inv_ok {A B} (m : M A) (f : A -> M B) s b s'' :
  bind m f s = (Ok b, s'') -> exists a s', m s = (Ok a, s') /\ f a s' = (Ok b, s'').
Proof.
  unfold bind. destruct (m s) as [[a|e] s'] eqn:E; intros H; [|discriminate].
  exists a, s'. auto.
Qed.

Lemma keeps_ids_ret {A} (a : A) : keeps_ids (ret a).
Proof. intros s o s' H. inversion H; reflexivity. Qed.

Lemma keeps_ids_throw {A} e : keeps_ids (@throw A e).
Proof. intros s o s' H. inversion H; reflexivity. Qed.

Lemma keeps_ids_get : keeps_ids get_store.
Proof. intros s o s' H. inversion H; reflexivity. Qed.

Lemma keeps_ids_bind {A B} (m : M A) (f : A -> M B) :
  keeps_ids m -> (forall a, keeps_ids (f a)) -> keeps_ids (bind m f).
Proof.
  intros Hm Hf s o s'' H. unfold bind in H.
  destruct (m s) as [[a|e] s'] eqn:E.
  - rewrite (Hf a _ _ _ H). exact (Hm _ _ _ E).
  - inversion H; subst. exact (Hm _ _ _ E).
Qed.

Lemma keeps_ids_check z : keeps_ids (check_int4 z).
Proof. unfold check_int4. destruct (int4_ok z); [apply keeps_ids_ret | apply keeps_ids_throw]. Qed.

Lemma keeps_ids_nextval z : keeps_ids (nextval z).
Proof. unfold nextval. destruct (int4_ok z); [apply keeps_ids_ret | apply keeps_ids_throw]. Qed.

Lemma keeps_ids_put s0 : (map Apartment.id (apartments s0)) = (map Apartment.id (apartments s0)) ->
  forall s, map Apartment.id (apartments s0) = map Apartment.id (apartments s) ->
  forall o s', put_store s0 s = (o, s') ->
  map Apartment.id (apartments s') = map Apartment.id (apartments s).
Proof. intros _ s Hs o s' H. inversion H; subst. exact Hs. Qed.

Lemma update_apartment_keeps_ids id a : keeps_ids (update_apartment id a).
Proof.
  intros s o s' H. unfold update_apartment in H.
  unfold bind, check_int4 in H. destruct (int4_ok id); [|inversion H; reflexivity].
  simpl in H. destruct (bind_texts (payload_texts a) s) as [[[]|e] s1] eqn:Eb;
    apply bind_texts_state in Eb; subst s1; [|inversion H; reflexivity].
  destruct (price_of_payload a) as [pr|]; [|inversion H; reflexivity].
  unfold get_store, put_store in H. simpl in H. inversion H; subst. simpl.
  rewrite map_map. apply map_ext. intros row.
  destruct (Apartment.id row =? id); reflexivity.
Qed.

Lemma deleteAssignmentsByApartment_keeps_ids id : keeps_ids (deleteAssignmentsByApartment id).
Proof.
  intros s o s' H. unfold deleteAssignmentsByApartment, bind, check_int4 in H.
  destruct (int4_ok id); inversion H; reflexivity.
Qed.

(** The two ways [createAssignment] can end. *)
Lemma createAssignment_cases a e s :
  (int4_ok a = true /\ int4_ok e = true /\ int4_ok (assignments_seq s) = true /\
   apartment_exists s a = true /\ employee_exists s e = true /\ pair_stored s a e = false /\
   createAssignment a e s =
     (Ok (Assignment.mk (assignments_seq s) a e),
      with_tables (bump_assignments_seq s) (apartments s) (employees_tbl s)
                  (assignments s ++ [Assignment.mk (assignments_seq s) a e]))) \/
  (exists msg s', createAssignment a e s = (Throw msg, s') /\
     apartments s' = apartments s /\ employees_tbl s' = employees_tbl s /\
     assignments s' = assignments s).
Proof.
  unfold createAssignment, bind, check_int4, nextval, get_store, put_store, ret, throw.
  destruct (int4_ok a) eqn:Ha; [|right; do 2 eexists; split; [reflexivity|auto]].
  destruct (int4_ok e) eqn:He; [|right; do 2 eexists; split; [reflexivity|auto]].
  destruct (int4_ok (assignments_seq s)) eqn:Hq; [|right; do 2 eexists; split; [reflexivity|auto]].
  simpl. unfold apartment_exists, employee_exists, pair_stored.
  destruct (existsb (fun a0 => Apartment.id a0 =? a) (apartments s)) eqn:E1; simpl;
    [|right; do 2 eexists; split; [reflexivity|auto]].
  destruct (existsb (fun e0 => Employee.id e0 =? e) (employees_tbl s)) eqn:E2; simpl;
    [|right; do 2 eexists; split; [reflexivity|auto]].
  destruct (existsb _ (assignments s)) eqn:E3; simpl;
    [right; do 2 eexists; split; [reflexivity|auto]|].
  left. repeat split; reflexivity.
Qed.

Lemma createAssignment_tables a e s o s' :
  createAssignment a e s = (o, s') ->
  apartments s' = apartments s /\ employees_tbl s' = employees_tbl s.
Proof.
  intros H. destruct (createAssignment_cases a e s) as
    [(_ & _ & _ & _ & _ & _ & E) | (msg & s1 & E & H1 & H2 & _)];
    rewrite E in H; inversion H; subst; auto.
Qed.

Lemma createAssignment_keeps_ids a e : keeps_ids (createAssignment a e).
Proof.
  intros s o s' H. now rewrite (proj1 (createAssignment_tables a e s o s' H)).
Qed.

Lemma for_each_keeps_ids {A} (f : A -> M unit) xs :
  (forall x, keeps_ids (f x)) -> keeps_ids (for_each f xs).
Proof.
  intros Hf. induction xs as [|x xs IH]; simpl; [apply keeps_ids_ret|].
  apply keeps_ids_bind; [apply Hf | intros _; exact IH].
Qed.

Lemma existsb_map_comp {A B} (f : B -> bool) (g : A -> B) l :
  existsb f (map g l) = existsb (fun x => f (g x)) l.
Proof. induction l as [|x l IH]; simpl; [reflexivity|]. now rewrite IH. Qed.

Lemma apartment_exists_ids s s' id :
  map Apartment.id (apartments s') = map Apartment.id (apartments s) ->
  apartment_exists s' id = apartment_exists s id.
Proof.
  unfold apartment_exists. intros H.
  rewrite <- !(existsb_map_comp (fun x => x =? id) Apartment.id), H. reflexivity.
Qed.

Lemma getApartment_some_exists id s u s' :
  getApartment id s = (Ok (Some u), s') -> apartment_exists s id = true.
Proof.
  unfold getApartment, select_apartments_by_id, bind, check_int4.
  destruct (int4_ok id); simpl; [|discriminate].
  destruct (filter (fun a => Apartment.id a =? id) (apartments s)) as [|a rows] eqn:E;
    [discriminate|].
  intros _. apply apartment_exists_iff. exists a.
  assert (Ha : In a (filter (fun a => Apartment.id a =? id) (apartments s))) by (rewrite E; left; auto).
  apply filter_In in Ha as [Ha Hid]. split; [exact Ha | now apply Z.eqb_eq].
Qed.

(** [updateApartment] only returns when the apartment existed before. *)
Lemma updateApartment_ok_exists id a ids s r s' :
  updateApartment id a ids s = (Ok r, s') -> apartment_exists s id = true.
Proof.
  unfold updateApartment. intros H.
  apply bind_inv_ok in H as [? [s1 [H1 H]]].
  apply bind_inv_ok in H as [? [s2 [H2 H]]].
  apply bind_inv_ok in H as [? [s3 [H3 H]]].
  apply bind_inv_ok in H as [u [s4 [H4 H]]].
  destruct u as [u|]; [|discriminate].
  apply getApartment_some_exists in H4.
  rewrite <- (apartment_exists_ids s s3).
  - exact H4.
  - rewrite (for_each_keeps_ids _ ids (fun e => keeps_ids_bind _ _ (createAssignment_keeps_ids id e)
                                          (fun _ => keeps_ids_ret tt)) _ _ _ H3).
    rewrite (deleteAssignmentsByApartment_keeps_ids id _ _ _ H2).
    exact (update_apartment_keeps_ids id a _ _ _ H1).
Qed.

(** C4 (code_bug): [PUT /apartments/:id] with a valid body and an id no
    apartment has is answered 500, never 404: [updateApartment] throws
    a plain [Error] and the route maps every exception to 500. *)
Theorem put_missing_is_500 param id a ids s :
  parseInt param = Some id -> apartment_exists s id = false ->
  status_code (fst (put_apartment param (Valid a ids) s)) = 500.
Proof.
  intros Hp Hex. unfold put_apartment, run. rewrite Hp.
  destruct (updateApartment id a _ s) as [[r|e] s'] eqn:E; [|reflexivity].
  apply updateApartment_ok_exists in E. congruence.
Qed.

Lemma put_missing_is_500_witness :
  parseInt "999" = Some 999 /\ apartment_exists example_store 999 = false /\
  status_code (fst (put_apartment "999" (Valid flat_payload (Some [])) example_store)) = 500.
Proof.
  split; [reflexivity|]. split; [reflexivity|].
  apply (put_missing_is_500 "999" 999); reflexivity.
Defined.

(* ------------------------------------------------------------------ *)
(** ** The assignment loop of [createApartment] and [updateApartment] *)

Lemma createAssignment_ok a e s :
  int4_ok a = true -> int4_ok e = true -> int4_ok (assignments_seq s) = true ->
  apartment_exists s a = true -> employee_exists s e = true -> pair_stored s a e = false ->
  createAssignment a e s =
    (Ok (Assignment.mk (assignments_seq s) a e),
     with_tables (bump_assignments_seq s) (apartments s) (employees_tbl s)
                 (assignments s ++ [Assignment.mk (assignments_seq s) a e])).
Proof.
  intros H1 H2 H3 H4 H5 H6.
  destruct (createAssignment_cases a e s) as [(_ & _ & _ & _ & _ & _ & E) | (msg & s' & E & _)];
    [exact E|].
  exfalso. revert E.
  unfold createAssignment, bind, check_int4, nextval, get_store, put_store, ret, throw.
  rewrite H1, H2, H3. simpl.
  unfold apartment_exists, employee_exists, pair_stored in *. rewrite H4, H5, H6. simpl.
  discriminate.
Qed.

Lemma createAssignment_ok_inv a e s r s' :
  createAssignment a e s = (Ok r, s') ->
  apartment_exists s a = true /\ employee_exists s e = true /\ pair_stored s a e = false /\
  apartments s' = apartments s /\ employees_tbl s' = employees_tbl s /\
  map asg_pair (assignments s') = map asg_pair (assignments s) ++ [(a, e)] /\
  assignments_seq s' = assignments_seq s + 1.
Proof.
  intros H. destruct (createAssignment_cases a e s) as
    [(_ & _ & _ & H4 & H5 & H6 & E) | (msg & s1 & E & _)]; rewrite E in H; inversion H; subst.
  repeat split; auto. simpl. now rewrite map_app.
Qed.

Lemma pair_stored_iff s a e :
  pair_stored s a e = true <-> In (a, e) (map asg_pair (assignments s)).
Proof.
  unfold pair_stored. rewrite existsb_exists, in_map_iff. split.
  - intros [asg [Hin H]]. apply andb_true_iff in H as [H1 H2].
    apply Z.eqb_eq in H1, H2. exists asg. unfold asg_pair. rewrite H1, H2. auto.
  - intros [asg [Hp Hin]]. exists asg. unfold asg_pair in Hp. inversion Hp.
    rewrite !Z.eqb_refl. auto.
Qed.

Lemma assign_loop_ok_inv id L s s' :
  assign_loop id L s = (Ok tt, s') ->
  apartments s' = apartments s /\ employees_tbl s' = employees_tbl s /\
  map asg_pair (assignments s') = map asg_pair (assignments s) ++ map (fun e => (id, e)) L /\
  NoDup L /\
  (forall e, In e L -> pair_stored s id e = false /\ employee_exists s e = true).
Proof.
  revert s. induction L as [|e L IH]; simpl; intros s H.
  - inversion H; subst. rewrite app_nil_r. repeat split; auto; [constructor|contradiction].
  - apply bind_inv_ok in H as [u [s1 [H1 H]]].
    apply bind_inv_ok in H1 as [r [s0 [H0 Hr]]]. inversion Hr; subst.
    destruct (createAssignment_ok_inv _ _ _ _ _ H0) as (_ & Hee & Hnp & Ha & He & Hp & _).
    destruct (IH _ H) as (Ha' & He' & Hp' & Hnd & Hall).
    split; [|split; [|split; [|split]]].
    + congruence.
    + congruence.
    + rewrite Hp', Hp, <- app_assoc. reflexivity.
    + constructor; [|exact Hnd]. intros Hin.
      destruct (Hall e Hin) as [Hf _].
      assert (pair_stored s1 id e = true).
      { apply pair_stored_iff. rewrite Hp. apply in_or_app. right; left; reflexivity. }
      congruence.
    + intros e' [<-|Hin]; [split; [exact Hnp | exact Hee]|].
      destruct (Hall e' Hin) as [Hf Hx]. split.
      * apply not_true_is_false. intros Hs. apply pair_stored_iff in Hs.
        assert (pair_stored s1 id e' = true).
        { apply pair_stored_iff. rewrite Hp. apply in_or_app. now left. }
        congruence.
      * unfold employee_exists in *. congruence.
Qed.

Lemma int4_ok_iff z : int4_ok z = true <-> - 2 ^ 31 <= z < 2 ^ 31.
Proof. unfold int4_ok. rewrite andb_true_iff, Z.leb_le, Z.ltb_lt. tauto. Qed.

Lemma pair_stored_app s a e rows :
  pair_stored (with_tables s (apartments s) (employees_tbl s) (assignments s ++ rows)) a e =
  pair_stored s a e || existsb (fun asg => (Assignment.apartment_id asg =? a)
                                          && (Assignment.employee_id asg =? e)) rows.
Proof. unfold pair_stored, with_tables. simpl. apply existsb_app. Qed.

Lemma assign_loop_ok id L s :
  int4_ok id = true -> apartment_exists s id = true -> NoDup L ->
  (forall e, In e L ->
     int4_ok e = true /\ employee_exists s e = true /\ pair_stored s id e = false) ->
  - 2 ^ 31 <= assignments_seq s -> assignments_seq s + Z.of_nat (length L) <= 2 ^ 31 ->
  exists s', assign_loop id L s = (Ok tt, s').
Proof.
  revert s. induction L as [|e L IH]; intros s Hid Hex Hnd Hall Hlo Hhi.
  - exists s. reflexivity.
  - inversion Hnd as [|? ? Hnotin Hnd']; subst.
    destruct (Hall e (or_introl eq_refl)) as (He1 & He2 & He3).
    assert (Hq : int4_ok (assignments_seq s) = true).
    { apply int4_ok_iff. simpl length in Hhi. lia. }
    pose proof (createAssignment_ok id e s Hid He1 Hq Hex He2 He3) as Hc.
    set (s1 := with_tables (bump_assignments_seq s) (apartments s) (employees_tbl s)
                 (assignments s ++ [Assignment.mk (assignments_seq s) id e])) in Hc.
    destruct (IH s1) as [s' Hs'].
    + exact Hid.
    + exact Hex.
    + exact Hnd'.
    + intros e' Hin. destruct (Hall e' (or_intror Hin)) as (H1 & H2 & H3).
      split; [exact H1|]. split; [exact H2|].
      unfold s1, pair_stored. simpl. rewrite existsb_app. unfold pair_stored in H3.
      rewrite H3. simpl. rewrite Z.eqb_refl. simpl.
      destruct (e =? e') eqn:E; [|reflexivity].
      apply Z.eqb_eq in E. subst. contradiction.
    + simpl. lia.
    + simpl. simpl length in Hhi. lia.
    + exists s'. unfold assign_loop. simpl.
      rewrite (bind_ok _ _ s tt s1).
      * exact Hs'.
      * rewrite (bind_ok _ _ s _ s1 Hc). reflexivity.
Qed.

(** The employees [getEmployeesForApartment] finds are the existing
    employees of the apartment's assignments. *)
Lemma in_employees_for_apartment s aid x :
  In x (map EmployeeName.id (employees_for_apartment s aid)) <->
  employee_exists s x = true /\ In x (staff_of s aid).
Proof.
  unfold employees_for_apartment, staff_of. rewrite in_map_iff. split.
  - intros [en [Hx Hin]]. apply in_flat_map in Hin as [e [He Hin]].
    apply in_map_iff in Hin as [asg [Hen Hasg]]. subst en x. simpl.
    apply filter_In in Hasg as [Hasg Hc]. apply andb_true_iff in Hc as [C1 C2].
    apply Z.eqb_eq in C1, C2. split.
    + apply employee_exists_iff. eauto.
    + apply in_map_iff. exists asg. split; [exact C1|]. apply filter_In. split; [exact Hasg|].
      now apply Z.eqb_eq.
  - intros [Hex Hin]. apply employee_exists_iff in Hex as [e [He Hid]].
    apply in_map_iff in Hin as [asg [Hx Hasg]]. apply filter_In in Hasg as [Hasg Hc].
    exists (EmployeeName.mk (Employee.id e) (Employee.first_name e) (Employee.last_name e)).
    split; [simpl; exact Hid|].
    apply in_flat_map. exists e. split; [exact He|].
    apply in_map_iff. exists asg. split; [reflexivity|].
    apply filter_In. split; [exact Hasg|]. rewrite Hc, Hx, Hid, Z.eqb_refl. reflexivity.
Qed.

Lemma staff_of_pairs s aid :
  staff_of s aid = map snd (filter (fun p => fst p =? aid) (map asg_pair (assignments s))).
Proof.
  unfold staff_of. induction (assignments s) as [|asg l IH]; simpl; [reflexivity|].
  destruct (Assignment.apartment_id asg =? aid); simpl; now rewrite IH.
Qed.

Lemma filter_pairs_of_id id L :
  map snd (filter (fun p : Z * Z => fst p =? id) (map (fun e : Z => (id, e)) L)) = L.
Proof.
  induction L as [|e L IH]; simpl; [reflexivity|]. rewrite Z.eqb_refl. simpl. now rewrite IH.
Qed.

Lemma staff_of_after_loop id L s2 s3 :
  assign_loop id L s2 = (Ok tt, s3) ->
  staff_of s2 id = [] -> staff_of s3 id = L.
Proof.
  intros H Hnil. destruct (assign_loop_ok_inv _ _ _ _ H) as (_ & _ & Hp & _).
  rewrite staff_of_pairs, Hp, filter_app, map_app, <- staff_of_pairs, Hnil.
  apply filter_pairs_of_id.
Qed.

Lemma employees_for_apartment_exactly s aid L :
  staff_of s aid = L -> (forall e, In e L -> employee_exists s e = true) ->
  (forall x, In x (map EmployeeName.id (employees_for_apartment s aid)) <-> In x L) /\
  (L = [] -> employees_for_apartment s aid = []).
Proof.
  intros Hst Hex. assert (Hiff : forall x, In x (map EmployeeName.id (employees_for_apartment s aid)) <-> In x L).
  { intros x. rewrite in_employees_for_apartment, Hst. split; [tauto|].
    intros Hx. split; [now apply Hex | exact Hx]. }
  split; [exact Hiff|]. intros ->.
  destruct (employees_for_apartment s aid) as [|en ens] eqn:E; [reflexivity|].
  exfalso. apply (proj1 (Hiff (EmployeeName.id en))). left; reflexivity.
Qed.

Lemma updateApartment_ok_nodup id a L s r s' :
  updateApartment id a L s = (Ok r, s') -> NoDup L.
Proof.
  unfold updateApartment. intros H.
  apply bind_inv_ok in H as [? [s1 [H1 H]]].
  apply bind_inv_ok in H as [? [s2 [H2 H]]].
  apply bind_inv_ok in H as [u [s3 [H3 H]]]. destruct u.
  exact (proj1 (proj2 (proj2 (proj2 (assign_loop_ok_inv id L s2 s3 H3))))).
Qed.

(** C3 (counterexample): with the staff list [[1; 1; 2]] the second [1]
    breaks the unique (apartment, employee) pair: the call fails and
    apartment 1 keeps only employee 1, not 2. *)
Lemma update_replaces_for_every_list_fails : ~ update_replaces_for_every_list.
Proof.
  intros H.
  assert (Hfail : updateApartment 1 flat_payload [1; 1; 2] example_store =
                  (Throw "duplicate key value violates unique constraint (apartment_id, employee_id)",
                   snd (updateApartment 1 flat_payload [1; 1; 2] example_store)))
    by reflexivity.
  destruct (H example_store 1 flat_payload [1; 1; 2]) as [r [s' [E _]]].
  - reflexivity.
  - reflexivity.
  - discriminate.
  - intros e He. simpl in He. destruct He as [<-|[<-|[<-|[]]]]; reflexivity.
  - rewrite Hfail in E. discriminate E.
Qed.

Lemma update_apartment_ok id a pr s :
  int4_ok id = true -> existsb has_nul (payload_texts a) = false -> price_of_payload a = Some pr ->
  update_apartment id a s =
    (Ok tt, with_tables s
       (map (fun row => if Apartment.id row =? id then set_fields a pr row else row) (apartments s))
       (employees_tbl s) (assignments s)).
Proof.
  intros Hid Ht Hp. unfold update_apartment, bind, check_int4. rewrite Hid. simpl.
  rewrite (bind_texts_ok _ _ Ht). rewrite Hp. reflexivity.
Qed.

Lemma update_apartment_nul id a s :
  existsb has_nul (payload_texts a) = true -> exists msg, update_apartment id a s = (Throw msg, s).
Proof.
  intros Ht. unfold update_apartment, bind, check_int4. destruct (int4_ok id); [|eexists; reflexivity].
  simpl. rewrite (bind_texts_fails _ _ Ht). eexists; reflexivity.
Qed.

Lemma deleteAssignmentsByApartment_ok id s :
  int4_ok id = true ->
  deleteAssignmentsByApartment id s =
    (Ok tt, with_tables s (apartments s) (employees_tbl s)
       (filter (fun asg => negb (Assignment.apartment_id asg =? id)) (assignments s))).
Proof.
  intros Hid. unfold deleteAssignmentsByApartment, bind, check_int4. rewrite Hid. reflexivity.
Qed.

Lemma staff_of_deleted s id :
  staff_of (with_tables s (apartments s) (employees_tbl s)
              (filter (fun asg => negb (Assignment.apartment_id asg =? id)) (assignments s))) id = [].
Proof.
  unfold staff_of, with_tables. simpl.
  induction (assignments s) as [|asg l IH]; simpl; [reflexivity|].
  destruct (Assignment.apartment_id asg =? id) eqn:E; simpl; [exact IH|].
  rewrite E. exact IH.
Qed.

Lemma pair_stored_staff s id e : pair_stored s id e = true -> In e (staff_of s id).
Proof.
  intros H. apply pair_stored_iff in H. rewrite staff_of_pairs.
  apply in_map_iff. exists (id, e). split; [reflexivity|]. apply filter_In.
  split; [exact H | apply Z.eqb_refl].
Qed.

(** C3 (amended): for an existing apartment, a body whose texts hold no
    NUL byte and whose price fits [numeric(10,2)], and a list [L] of distinct ids of existing employees
    (with the assignment sequence not exhausted), [updateApartment]
    succeeds; afterwards the apartment's assignments are exactly [L],
    whatever they were before, the returned record is what a following
    [getApartment] returns, its employees are those of [L] (none when [L]
    is empty) and its fields are the old row overwritten by the body.  A
    list with a repeated id never succeeds. *)
Theorem updateApartment_replaces s id a pr L :
  wf_store s = true -> apartment_exists s id = true ->
  existsb has_nul (payload_texts a) = false -> price_of_payload a = Some pr ->
  NoDup L -> (forall e, In e L -> employee_exists s e = true) ->
  - 2 ^ 31 <= assignments_seq s -> assignments_seq s + Z.of_nat (length L) <= 2 ^ 31 ->
  (exists r s', updateApartment id a L s = (Ok r, s') /\
     staff_of s' id = L /\
     getApartment id s' = (Ok (Some r), s') /\
     (forall x, In x (map EmployeeName.id (employees r)) <-> In x L) /\
     (L = [] -> employees r = []) /\
     (forall old, In old (apartments s) -> Apartment.id old = id ->
        apartment r = set_fields a pr old)) /\
  (forall L' r' s'', updateApartment id a L' s = (Ok r', s'') -> NoDup L').
Proof.
  intros Hwf Hex Ht Hpr Hnd HL Hlo Hhi.
  split; [|intros L' r' s''; apply updateApartment_ok_nodup].
  pose proof (wf_store_props s Hwf) as W.
  destruct (proj1 (apartment_exists_iff s id) Hex) as [old [Hold Hoid]].
  assert (Hid : int4_ok id = true) by (rewrite <- Hoid; exact (proj1 (wf_apt_ids s W old Hold))).
  set (upd := fun row => if Apartment.id row =? id then set_fields a pr row else row).
  set (s1 := with_tables s (map upd (apartments s)) (employees_tbl s) (assignments s)).
  set (s2 := with_tables s1 (apartments s1) (employees_tbl s1)
               (filter (fun asg => negb (Assignment.apartment_id asg =? id)) (assignments s1))).
  assert (Hids1 : map Apartment.id (apartments s1) = map Apartment.id (apartments s)).
  { unfold s1, with_tables, upd. simpl. rewrite map_map. apply map_ext. intros row.
    destruct (Apartment.id row =? id); reflexivity. }
  destruct (assign_loop_ok id L s2) as [s3 H3].
  - exact Hid.
  - unfold s2. rewrite <- Hex. apply apartment_exists_ids. exact Hids1.
  - exact Hnd.
  - intros e He. pose proof (HL e He) as Hee. split; [|split].
    + apply employee_exists_iff in Hee as [emp [Hemp <-]].
      exact (proj1 (wf_emp_ids s W emp Hemp)).
    + exact Hee.
    + apply not_true_is_false. intros Hs. apply pair_stored_staff in Hs.
      unfold s2 in Hs. rewrite staff_of_deleted in Hs. destruct Hs.
  - exact Hlo.
  - exact Hhi.
  - destruct (assign_loop_ok_inv _ _ _ _ H3) as (Ha3 & He3 & _ & _ & _).
    assert (Hst : staff_of s3 id = L) by (apply (staff_of_after_loop id L s2 s3 H3); apply staff_of_deleted).
    assert (Hrow : filter (fun row => Apartment.id row =? id) (apartments s3) = [set_fields a pr old]).
    { rewrite Ha3. change (apartments s2) with (map upd (apartments s)).
      assert (Hin : In (set_fields a pr old) (map upd (apartments s))).
      { apply in_map_iff. exists old. split; [|exact Hold]. unfold upd. rewrite Hoid, Z.eqb_refl. reflexivity. }
      pose proof (filter_unique_id Apartment.id (map upd (apartments s)) (set_fields a pr old)) as Hu.
      simpl in Hu. rewrite Hoid in Hu. apply Hu; [|exact Hin].
      change (map upd (apartments s)) with (apartments s1). rewrite Hids1. exact (wf_apt_nodup s W). }
    set (r := mkAWE (set_fields a pr old) (employees_for_apartment s3 id)).
    assert (Hget : getApartment id s3 = (Ok (Some r), s3)).
    { unfold getApartment, select_apartments_by_id, bind, check_int4. rewrite Hid. simpl.
      rewrite Hrow. unfold getEmployeesForApartment, bind, check_int4. rewrite Hid. reflexivity. }
    exists r, s3. split.
    + unfold updateApartment.
      rewrite (bind_ok _ _ s tt s1) by (apply update_apartment_ok; assumption).
      rewrite (bind_ok _ _ s1 tt s2) by (apply deleteAssignmentsByApartment_ok; assumption).
      change (for_each (fun employeeId => do _ <- createAssignment id employeeId; ret tt) L)
        with (assign_loop id L).
      rewrite (bind_ok _ _ s2 tt s3 H3).
      rewrite (bind_ok _ _ s3 (Some r) s3 Hget). reflexivity.
    + assert (HL3 : forall e, In e L -> employee_exists s3 e = true).
      { intros e He. unfold employee_exists. rewrite He3. exact (HL e He). }
      destruct (employees_for_apartment_exactly s3 id L Hst HL3) as [Hm Hnil].
      split; [exact Hst|]. split; [exact Hget|]. split; [exact Hm|]. split; [exact Hnil|].
      intros old' Hold' Hid'. simpl.
      assert (old' = old).
      { pose proof (wf_apt_nodup s W) as Hnd'.
        pose proof (filter_unique_id Apartment.id _ old Hnd' Hold) as F1.
        assert (Hin' : In old' (filter (fun x => Apartment.id x =? Apartment.id old) (apartments s))).
        { apply filter_In. split; [exact Hold'|]. rewrite Hid', Hoid. apply Z.eqb_refl. }
        rewrite F1 in Hin'. destruct Hin' as [->|[]]. reflexivity. }
      subst. reflexivity.
Qed.

Lemma updateApartment_replaces_witness :
  (exists r s', updateApartment 1 flat_payload [2] example_store = (Ok r, s') /\
     staff_of s' 1 = [2] /\
     getApartment 1 s' = (Ok (Some r), s') /\
     (forall x, In x (map EmployeeName.id (employees r)) <-> In x [2]) /\
     ([2] = [] -> employees r = []) /\
     (forall old, In old (apartments example_store) -> Apartment.id old = 1 ->
        apartment r = set_fields flat_payload None old)) /\
  (forall L' r' s'', updateApartment 1 flat_payload L' example_store = (Ok r', s'') -> NoDup L').
Proof.
  apply updateApartment_replaces.
  - reflexivity.
  - reflexivity.
  - reflexivity.
  - reflexivity.
  - repeat constructor. simpl. tauto.
  - intros e [<-|[]]. reflexivity.
  - simpl. lia.
  - simpl. lia.
Defined.

(* ------------------------------------------------------------------ *)
(** ** Creating an apartment *)

(** No body gets past the insert of its row: the row has no [user_id]. *)
Lemma insert_apartment_throws a s :
  exists msg, insert_apartment a s =
    (Throw msg,
     if existsb has_nul (payload_texts a) then s
     else match price_of_payload a with
          | None => s
          | Some _ =>
              if int4_ok (apartments_seq s)
              then mkStore (apartments s) (employees_tbl s) (assignments s)
                           (apartments_seq s + 1) (employees_seq s) (assignments_seq s)
              else s
          end).
Proof.
  unfold insert_apartment, bind_texts, bind, get_store, put_store, nextval, ret, throw.
  destruct (existsb has_nul (payload_texts a)); [eexists; reflexivity|].
  destruct (price_of_payload a); [|eexists; reflexivity].
  destruct (int4_ok (apartments_seq s)); eexists; reflexivity.
Qed.

Lemma createApartment_throws a L s :
  exists msg, createApartment a L s = (Throw msg, snd (insert_apartment a s)).
Proof.
  destruct (insert_apartment_throws a s) as [msg E].
  exists msg. unfold createApartment, bind. rewrite E. reflexivity.
Qed.

Lemma createApartment_after_insert_nodup row L s r s' :
  createApartment_after_insert row L s = (Ok r, s') -> NoDup L.
Proof.
  unfold createApartment_after_insert. intros H.
  apply bind_inv_ok in H as [u [s2 [H2 H]]]. destruct u.
  exact (proj1 (proj2 (proj2 (proj2 (assign_loop_ok_inv _ L s s2 H2))))).
Qed.

(** C6 (counterexample): with the staff list [[1; 1]] [createApartment]
    does not succeed, and the statements that follow the insert of a row
    refuse the repeated id on the unique (apartment, employee) pair. *)
Lemma create_collapses_duplicates_fails :
  (~ create_collapses_duplicates) /\
  fst (createApartment_after_insert attico [1; 1] example_store) =
    Throw "duplicate key value violates unique constraint (apartment_id, employee_id)".
Proof.
  split; [|reflexivity].
  intros H.
  destruct (H example_store flat_payload [1; 1]) as [r [s' [E _]]].
  - reflexivity.
  - discriminate.
  - intros e He. simpl in He. destruct He as [<-|[<-|[]]]; reflexivity.
  - apply (f_equal fst) in E. vm_compute in E. discriminate E.
Qed.

(** C6 (amended): [createApartment] inserts the row, then one assignment
    per staff id, with no deduplication.  For a row [row] stored in a
    well-formed database with no assignments yet, and a list [L] of
    distinct ids of existing employees (assignment sequence not
    exhausted), the statements after the insert succeed: the record
    returned is [row] with the employees of [L], a following
    [getApartment] on its id returns the same record, and the apartment's
    assignments are exactly [L].  A list with a repeated id never
    succeeds. *)
Theorem createApartment_roundtrip s row L :
  wf_store s = true -> In row (apartments s) -> staff_of s (Apartment.id row) = [] ->
  NoDup L -> (forall e, In e L -> employee_exists s e = true) ->
  - 2 ^ 31 <= assignments_seq s -> assignments_seq s + Z.of_nat (length L) <= 2 ^ 31 ->
  (exists r s', createApartment_after_insert row L s = (Ok r, s') /\
     apartment r = row /\
     getApartment (Apartment.id row) s' = (Ok (Some r), s') /\
     staff_of s' (Apartment.id row) = L /\
     (forall x, In x (map EmployeeName.id (employees r)) <-> In x L)) /\
  (forall L' r' s'', createApartment_after_insert row L' s = (Ok r', s'') -> NoDup L').
Proof.
  intros Hwf Hin Hnone Hnd HL Hlo Hhi.
  split; [|intros L' r' s''; apply createApartment_after_insert_nodup].
  pose proof (wf_store_props s Hwf) as W.
  set (id := Apartment.id row).
  destruct (wf_apt_ids s W row Hin) as [Hq _].
  assert (Hq' : int4_ok id = true) by exact Hq.
  destruct (assign_loop_ok id L s) as [s2 H2].
  - exact Hq.
  - apply apartment_exists_iff. exists row. split; [exact Hin|reflexivity].
  - exact Hnd.
  - intros e He. pose proof (HL e He) as Hee. split; [|split].
    + apply employee_exists_iff in Hee as [emp [Hemp <-]].
      exact (proj1 (wf_emp_ids s W emp Hemp)).
    + exact Hee.
    + apply not_true_is_false. intros Hs. apply pair_stored_staff in Hs.
      unfold id in Hs. rewrite Hnone in Hs. destruct Hs.
  - exact Hlo.
  - exact Hhi.
  - destruct (assign_loop_ok_inv _ _ _ _ H2) as (Ha2 & He2 & _ & _ & _).
    assert (Hst : staff_of s2 id = L) by exact (staff_of_after_loop id L s s2 H2 Hnone).
    set (r := mkAWE row (employees_for_apartment s2 id)).
    exists r, s2. split; [|split; [reflexivity|split; [|split]]].
    + unfold createApartment_after_insert.
      change (for_each (fun employeeId => do _ <- createAssignment (Apartment.id row) employeeId; ret tt) L)
        with (assign_loop id L).
      rewrite (bind_ok _ _ s tt s2 H2).
      unfold getEmployeesForApartment, bind, check_int4. rewrite ?Hq, ?Hq'. reflexivity.
    + unfold getApartment, select_apartments_by_id, bind, check_int4. rewrite ?Hq, ?Hq'. simpl.
      rewrite Ha2. unfold id. rewrite (filter_unique_id Apartment.id _ row (wf_apt_nodup s W) Hin).
      unfold getEmployeesForApartment, bind, check_int4. rewrite ?Hq, ?Hq'. reflexivity.
    + exact Hst.
    + assert (HL2 : forall e, In e L -> employee_exists s2 e = true).
      { intros e He. unfold employee_exists. rewrite He2. exact (HL e He). }
      exact (proj1 (employees_for_apartment_exactly s2 id L Hst HL2)).
Qed.

Lemma createApartment_roundtrip_witness :
  (exists r s', createApartment_after_insert attico [2; 1] example_store = (Ok r, s') /\
     apartment r = attico /\
     getApartment (Apartment.id attico) s' = (Ok (Some r), s') /\
     staff_of s' (Apartment.id attico) = [2; 1] /\
     (forall x, In x (map EmployeeName.id (employees r)) <-> In x [2; 1])) /\
  (forall L' r' s'', createApartment_after_insert attico L' example_store = (Ok r', s'') -> NoDup L').
Proof.
  apply createApartment_roundtrip.
  - reflexivity.
  - simpl. tauto.
  - reflexivity.
  - repeat constructor; simpl; intuition discriminate.
  - intros e [<-|[<-|[]]]; reflexivity.
  - simpl. lia.
  - simpl. lia.
Defined.

(* ------------------------------------------------------------------ *)
(** ** Deleting an employee *)

Lemma delete_employees_ok id s :
  int4_ok id = true ->
  delete_employees id s =
    (Ok tt, with_tables s (apartments s)
              (filter (fun e => negb (Employee.id e =? id)) (employees_tbl s))
              (filter (fun asg => negb (Assignment.employee_id asg =? id)) (assignments s))).
Proof. intros H. unfold delete_employees, bind, check_int4. rewrite H. reflexivity. Qed.

Lemma filter_map_const {A B} (p : B -> bool) (x : B) (l : list A) :
  filter p (map (fun _ => x) l) = if p x then map (fun _ => x) l else [].
Proof. induction l as [|y l IH]; simpl; [destruct (p x); reflexivity|]. rewrite IH. destruct (p x); reflexivity. Qed.

Lemma filter_filter_implied {A} (p q : A -> bool) (l : list A) :
  (forall x, p x = true -> q x = true) -> filter p (filter q l) = filter p l.
Proof.
  intros Hpq. induction l as [|x l IH]; simpl; [reflexivity|].
  destruct (q x) eqn:Hq; simpl.
  - destruct (p x); rewrite IH; reflexivity.
  - destruct (p x) eqn:Hp; [rewrite (Hpq x Hp) in Hq; discriminate|exact IH].
Qed.

Lemma employees_for_apartment_after_delete s id aid :
  employees_for_apartment
    (with_tables s (apartments s)
       (filter (fun e => negb (Employee.id e =? id)) (employees_tbl s))
       (filter (fun asg => negb (Assignment.employee_id asg =? id)) (assignments s))) aid
  = filter (fun n => negb (EmployeeName.id n =? id)) (employees_for_apartment s aid).
Proof.
  unfold employees_for_apartment. simpl.
  induction (employees_tbl s) as [|e es IH]; simpl; [reflexivity|].
  rewrite filter_app, filter_map_const. simpl.
  destruct (Employee.id e =? id) eqn:E; simpl.
  - exact IH.
  - rewrite IH. f_equal. f_equal.
    apply filter_filter_implied. intros asg Hasg.
    apply andb_prop in Hasg as [H1 _]. apply Z.eqb_eq in H1. rewrite H1, E. reflexivity.
Qed.

Lemma staff_of_after_delete s id aid :
  staff_of
    (with_tables s (apartments s)
       (filter (fun e => negb (Employee.id e =? id)) (employees_tbl s))
       (filter (fun asg => negb (Assignment.employee_id asg =? id)) (assignments s))) aid
  = filter (fun e => negb (e =? id)) (staff_of s aid).
Proof.
  unfold staff_of. simpl.
  induction (assignments s) as [|asg l IH]; simpl; [reflexivity|].
  destruct (Assignment.employee_id asg =? id) eqn:E1, (Assignment.apartment_id asg =? aid) eqn:E2;
    simpl; rewrite ?E1, ?E2; simpl; rewrite ?E1; simpl; congruence.
Qed.

(** C7: deleting an existing employee succeeds; every apartment row is
    left as it was (all fields, and the table itself); the employee
    disappears from the staff list every apartment reads (the other
    names stay, in their order), because the cascade removes exactly
    its Assignments. *)
Theorem deleteEmployee_frame s id :
  wf_store s = true -> employee_exists s id = true ->
  exists s', deleteEmployee id s = (Ok tt, s') /\
    apartments s' = apartments s /\
    employee_exists s' id = false /\
    (forall aid, employees_for_apartment s' aid =
                 filter (fun n => negb (EmployeeName.id n =? id)) (employees_for_apartment s aid)) /\
    (forall aid, ~ In id (map EmployeeName.id (employees_for_apartment s' aid))) /\
    (forall aid, staff_of s' aid = filter (fun e => negb (e =? id)) (staff_of s aid)) /\
    (forall aid, ~ In id (staff_of s' aid)).
Proof.
  intros Hwf Hex. pose proof (wf_store_props s Hwf) as W.
  assert (Hq : int4_ok id = true).
  { apply employee_exists_iff in Hex as [emp [Hemp <-]]. exact (proj1 (wf_emp_ids s W emp Hemp)). }
  eexists. split; [unfold deleteEmployee; apply delete_employees_ok, Hq|].
  split; [reflexivity|]. split; [|split; [|split; [|split]]].
  - unfold employee_exists. simpl. apply not_true_is_false. intros E.
    apply existsb_exists in E as [e [He E]]. apply filter_In in He as [_ He].
    rewrite E in He. discriminate.
  - intros aid. apply employees_for_apartment_after_delete.
  - intros aid Hin. rewrite employees_for_apartment_after_delete in Hin.
    apply in_map_iff in Hin as [n [En Hn]]. apply filter_In in Hn as [_ Hn].
    rewrite En, Z.eqb_refl in Hn. discriminate.
  - intros aid. apply staff_of_after_delete.
  - intros aid Hin. rewrite staff_of_after_delete in Hin.
    apply filter_In in Hin as [_ Hn]. rewrite Z.eqb_refl in Hn. discriminate.
Qed.

Lemma deleteEmployee_frame_witness :
  exists s', deleteEmployee 2 example_store = (Ok tt, s') /\
    apartments s' = apartments example_store /\
    employee_exists s' 2 = false /\
    (forall aid, employees_for_apartment s' aid =
                 filter (fun n => negb (EmployeeName.id n =? 2))
                        (employees_for_apartment example_store aid)) /\
    (forall aid, ~ In 2 (map EmployeeName.id (employees_for_apartment s' aid))) /\
    (forall aid, staff_of s' aid = filter (fun e => negb (e =? 2)) (staff_of example_store aid)) /\
    (forall aid, ~ In 2 (staff_of s' aid)).
Proof. apply deleteEmployee_frame; reflexivity. Defined.

(* ------------------------------------------------------------------ *)
(** ** [GROUP BY ... ORDER BY count DESC LIMIT 3] *)




Section Top3.
Context {K : Type} (keqb : K -> K -> bool).
Hypothesis keqb_iff : forall x y, keqb x y = true <-> x = y.






End Top3.










(* ------------------------------------------------------------------ *)
(** ** [LIKE '%q%'] on a plain [q] *)

Lemma like_match_percent p t :
  like_match ("%"%char :: p) t =
    like_match p t || match t with [] => false | _ :: t' => like_match ("%"%char :: p) t' end.
Proof. destruct t; reflexivity. Qed.

Lemma like_match_literal c p t :
  c <> "%"%char -> c <> "_"%char -> c <> "\"%char ->
  like_match (c :: p) t = match t with [] => false | c' :: t' => ascii_eqb c c' && like_match p t' end.
Proof.
  intros H1 H2 H3.
  destruct c as [[] [] [] [] [] [] [] []]; try reflexivity; exfalso; congruence.
Qed.

Lemma like_match_percent_end t : like_match ["%"%char] t = true.
Proof. induction t as [|c t IH]; [reflexivity|]. rewrite like_match_percent. now rewrite IH, orb_true_r. Qed.

Lemma plain_cons c q :
  forallb (fun c => negb (ascii_eqb c "%" || ascii_eqb c "_" || ascii_eqb c "\")) (c :: q) = true ->
  c <> "%"%char /\ c <> "_"%char /\ c <> "\"%char /\
  forallb (fun c => negb (ascii_eqb c "%" || ascii_eqb c "_" || ascii_eqb c "\")) q = true.
Proof.
  simpl. rewrite andb_true_iff, negb_true_iff, !orb_false_iff. unfold ascii_eqb.
  intros [[[H1 H2] H3] Hq].
  repeat split; try exact Hq; intros ->; [rewrite Ascii.eqb_refl in H1|rewrite Ascii.eqb_refl in H2
    |rewrite Ascii.eqb_refl in H3]; discriminate.
Qed.

Lemma like_match_prefix q t :
  forallb (fun c => negb (ascii_eqb c "%" || ascii_eqb c "_" || ascii_eqb c "\")) q = true ->
  like_match (q ++ ["%"%char]) t = prefixb q t.
Proof.
  revert t. induction q as [|c q IH]; intros t Hq.
  - simpl app. rewrite like_match_percent_end. destruct t; reflexivity.
  - apply plain_cons in Hq as (H1 & H2 & H3 & Hq).
    rewrite <- app_comm_cons, like_match_literal by assumption.
    destruct t as [|c' t]; [reflexivity|]. simpl prefixb. now rewrite IH.
Qed.

Lemma like_match_substring q t :
  forallb (fun c => negb (ascii_eqb c "%" || ascii_eqb c "_" || ascii_eqb c "\")) q = true ->
  like_match ("%"%char :: q ++ ["%"%char]) t = is_substring q t.
Proof.
  intros Hq. induction t as [|c t IH].
  - rewrite like_match_percent, like_match_prefix by exact Hq. simpl. now rewrite orb_false_r.
  - rewrite like_match_percent, like_match_prefix, IH by exact Hq. reflexivity.
Qed.

Lemma list_ascii_of_string_append a b :
  list_ascii_of_string (a ++ b) = list_ascii_of_string a ++ list_ascii_of_string b.
Proof. induction a as [|c a IH]; simpl; [reflexivity|]. now rewrite IH. Qed.

Lemma like_plain t q : plain q = true -> like t ("%" ++ q ++ "%") = contains t q.
Proof.
  intros Hq. unfold like, contains. rewrite !list_ascii_of_string_append.
  apply like_match_substring, Hq.
Qed.






(* ------------------------------------------------------------------ *)
(** ** Month bounds as text *)

Lemma opt_date_eqb_eq o d : opt_date_eqb o d = true -> o = Some d.
Proof.
  destruct o as [[[a b] c]|], d as [[a' b'] c']; simpl; [|discriminate].
  rewrite !andb_true_iff, !Z.eqb_eq. intros [[-> ->] ->]. reflexivity.
Qed.

Lemma in_range_seq lo n z :
  0 <= n -> lo <= z < lo + n -> In z (map (fun k => lo + Z.of_nat k) (seq 0 (Z.to_nat n))).
Proof.
  intros Hn H. apply in_map_iff. exists (Z.to_nat (z - lo)). split; [lia|].
  apply in_seq. lia.
Qed.

Lemma forallb2_In (f g : Z -> Z -> bool) (Ys Ms : list Z) y m :
  forallb (fun y => forallb (fun m => f y m && g y m) Ms) Ys = true ->
  In y Ys -> In m Ms -> f y m = true /\ g y m = true.
Proof.
  rewrite forallb_forall. intros H Hy Hm. specialize (H y Hy).
  rewrite forallb_forall in H. apply andb_true_iff, H, Hm.
Qed.

(** The two bounds of every month of the years 1000 to 9998 are dates;
    checked over the 8999 * 12 months. *)
Lemma month_bounds y m :
  1000 <= y <= 9998 -> 1 <= m <= 12 ->
  iso_date (monthStart y m) = Some (y, m, 1) /\
  iso_date (nextMonth y m) = Some (next_month_date y m).
Proof.
  intros Hy Hm.
  destruct (forallb2_In
              (fun y m => opt_date_eqb (iso_date (monthStart y m)) (y, m, 1))
              (fun y m => opt_date_eqb (iso_date (nextMonth y m)) (next_month_date y m))
              (map (fun k => 1000 + Z.of_nat k) (seq 0 (Z.to_nat 8999)))
              (map (fun k => 1 + Z.of_nat k) (seq 0 (Z.to_nat 12))) y m) as [H1 H2].
  - vm_compute. reflexivity.
  - apply in_range_seq; lia.
  - apply in_range_seq; lia.
  - split.
    + exact (opt_date_eqb_eq (iso_date (monthStart y m)) (y, m, 1) H1).
    + exact (opt_date_eqb_eq (iso_date (nextMonth y m)) (next_month_date y m) H2).
Qed.

Lemma lex_step a a' r r' B :
  0 <= r < B -> 0 <= r' < B ->
  Z.compare (a * B + r) (a' * B + r') =
    match Z.compare a a' with Eq => Z.compare r r' | c => c end.
Proof.
  intros Hr Hr'. destruct (Z.compare_spec a a') as [->|Hlt|Hgt].
  - destruct (Z.compare_spec r r') as [->|H|H].
    + apply Z.compare_eq_iff. reflexivity.
    + apply Z.compare_lt_iff. lia.
    + apply Z.compare_gt_iff. lia.
  - apply Z.compare_lt_iff. nia.
  - apply Z.compare_gt_iff. nia.
Qed.

Lemma dec_digit_range c v : dec_digit c = Some v -> 0 <= v <= 9.
Proof.
  unfold dec_digit. destruct (_ && _) eqn:E; [|discriminate].
  apply andb_prop in E as [E1 E2]. apply Z.leb_le in E1, E2. intros H; inversion H. lia.
Qed.

Lemma ascii_compare_digits c c' v v' :
  dec_digit c = Some v -> dec_digit c' = Some v' -> Ascii.compare c c' = Z.compare v v'.
Proof.
  unfold dec_digit, nat_of_ascii. rewrite !N_nat_Z.
  destruct (_ && _); [|discriminate]. destruct (_ && _); [|discriminate].
  intros H H'. inversion H; inversion H'; subst. unfold Ascii.compare.
  rewrite <- N2Z.inj_compare.
  destruct (Z.compare_spec (Z.of_N (N_of_ascii c)) (Z.of_N (N_of_ascii c'))) as [E|E|E];
    symmetry; [apply Z.compare_eq_iff|apply Z.compare_lt_iff|apply Z.compare_gt_iff]; lia.
Qed.

Lemma ascii_compare_refl c : Ascii.compare c c = Eq.
Proof. unfold Ascii.compare. apply N.compare_refl. Qed.

Lemma date_compare_value Y M D Y' M' D' :
  0 <= M < 100 -> 0 <= D < 100 -> 0 <= M' < 100 -> 0 <= D' < 100 ->
  date_compare (Y, M, D) (Y', M', D') =
    Z.compare (Y * 10000 + (M * 100 + D)) (Y' * 10000 + (M' * 100 + D')).
Proof.
  intros. simpl. rewrite lex_step by lia. destruct (Z.compare Y Y'); try reflexivity.
  rewrite lex_step by lia. reflexivity.
Qed.

(** Breaks a hypothesis [iso_date s = Some d] into the characters of [s]. *)
Ltac iso_cases H :=
  repeat match type of H with
  | match dec_digit ?c with _ => _ end = _ =>
      let E := fresh "E" in destruct (dec_digit c) eqn:E; [|discriminate H]
  | (if ascii_eqb ?c ?sep && ascii_eqb ?c' ?sep' then _ else _) = _ =>
      let S1 := fresh "S" in let S2 := fresh "S" in
      destruct (ascii_eqb c sep) eqn:S1; [|discriminate H];
      destruct (ascii_eqb c' sep') eqn:S2; [|discriminate H];
      apply Ascii.eqb_eq in S1, S2; subst c c'
  end.

Lemma iso_date_shape s d :
  iso_date s = Some d ->
  exists y1 y2 y3 y4 m1 m2 d1 d2 a1 a2 a3 a4 b1 b2 c1 c2,
    s = String y1 (String y2 (String y3 (String y4 (String "-"
          (String m1 (String m2 (String "-" (String d1 (String d2 EmptyString))))))))) /\
    dec_digit y1 = Some a1 /\ dec_digit y2 = Some a2 /\ dec_digit y3 = Some a3 /\
    dec_digit y4 = Some a4 /\ dec_digit m1 = Some b1 /\ dec_digit m2 = Some b2 /\
    dec_digit d1 = Some c1 /\ dec_digit d2 = Some c2 /\
    d = (a1 * 1000 + a2 * 100 + a3 * 10 + a4, b1 * 10 + b2, c1 * 10 + c2).
Proof.
  intros H.
  destruct s as [|y1 [|y2 [|y3 [|y4 [|s1 [|m1 [|m2 [|s2 [|d1 [|d2 [|x r]]]]]]]]]]];
    try discriminate H.
  unfold iso_date in H. iso_cases H. inversion H; subst.
  do 16 eexists. split; [reflexivity|]. repeat (split; [eassumption|]). reflexivity.
Qed.

(** Two ['YYYY-MM-DD'] texts compare, byte for byte, as their dates. *)
Lemma iso_date_compare s s' d d' :
  iso_date s = Some d -> iso_date s' = Some d' -> String.compare s s' = date_compare d d'.
Proof.
  intros H H'.
  destruct (iso_date_shape _ _ H)
    as (y1 & y2 & y3 & y4 & m1 & m2 & d1 & d2 & a1 & a2 & a3 & a4 & b1 & b2 & c1 & c2 &
        -> & A1 & A2 & A3 & A4 & B1 & B2 & C1 & C2 & ->).
  destruct (iso_date_shape _ _ H')
    as (y1' & y2' & y3' & y4' & m1' & m2' & d1' & d2' & a1' & a2' & a3' & a4' & b1' & b2' &
        c1' & c2' & -> & A1' & A2' & A3' & A4' & B1' & B2' & C1' & C2' & ->).
  pose proof (dec_digit_range _ _ A1). pose proof (dec_digit_range _ _ A2).
  pose proof (dec_digit_range _ _ A3). pose proof (dec_digit_range _ _ A4).
  pose proof (dec_digit_range _ _ B1). pose proof (dec_digit_range _ _ B2).
  pose proof (dec_digit_range _ _ C1). pose proof (dec_digit_range _ _ C2).
  pose proof (dec_digit_range _ _ A1'). pose proof (dec_digit_range _ _ A2').
  pose proof (dec_digit_range _ _ A3'). pose proof (dec_digit_range _ _ A4').
  pose proof (dec_digit_range _ _ B1'). pose proof (dec_digit_range _ _ B2').
  pose proof (dec_digit_range _ _ C1'). pose proof (dec_digit_range _ _ C2').
  rewrite date_compare_value by lia.
  cbn [String.compare].
  rewrite (ascii_compare_digits _ _ _ _ A1 A1'), (ascii_compare_digits _ _ _ _ A2 A2'),
    (ascii_compare_digits _ _ _ _ A3 A3'), (ascii_compare_digits _ _ _ _ A4 A4'),
    (ascii_compare_digits _ _ _ _ B1 B1'), (ascii_compare_digits _ _ _ _ B2 B2'),
    (ascii_compare_digits _ _ _ _ C1 C1'), (ascii_compare_digits _ _ _ _ C2 C2'),
    !ascii_compare_refl.
  replace ((a1 * 1000 + a2 * 100 + a3 * 10 + a4) * 10000 + ((b1 * 10 + b2) * 100 + (c1 * 10 + c2)))
    with (a1 * 10000000 + (a2 * 1000000 + (a3 * 100000 + (a4 * 10000 + (b1 * 1000
          + (b2 * 100 + (c1 * 10 + c2))))))) by ring.
  replace ((a1' * 1000 + a2' * 100 + a3' * 10 + a4') * 10000
           + ((b1' * 10 + b2') * 100 + (c1' * 10 + c2')))
    with (a1' * 10000000 + (a2' * 1000000 + (a3' * 100000 + (a4' * 10000 + (b1' * 1000
          + (b2' * 100 + (c1' * 10 + c2'))))))) by ring.
  rewrite lex_step by lia. destruct (Z.compare a1 a1'); try reflexivity.
  rewrite lex_step by lia. destruct (Z.compare a2 a2'); try reflexivity.
  rewrite lex_step by lia. destruct (Z.compare a3 a3'); try reflexivity.
  rewrite lex_step by lia. destruct (Z.compare a4 a4'); try reflexivity.
  rewrite lex_step by lia. destruct (Z.compare b1 b1'); try reflexivity.
  rewrite lex_step by lia. destruct (Z.compare b2 b2'); try reflexivity.
  rewrite lex_step by lia. destruct (Z.compare c1 c1'); try reflexivity.
  destruct (Z.compare c2 c2'); reflexivity.
Qed.

(** For a year of four digits the text bounds select the calendar month. *)
Lemma in_month_calendar y m a :
  1000 <= y <= 9998 -> 1 <= m <= 12 -> iso_date (Apartment.cleaning_date a) <> None ->
  in_month y m a = in_calendar_month y m (Apartment.cleaning_date a).
Proof.
  intros Hy Hm Hd. destruct (iso_date (Apartment.cleaning_date a)) as [d|] eqn:E; [|contradiction].
  destruct (month_bounds y m Hy Hm) as [H1 H2].
  unfold in_month, in_calendar_month, str_le, str_lt, String.leb, String.ltb. rewrite E.
  rewrite (iso_date_compare _ _ _ _ H1 E), (iso_date_compare _ _ _ _ E H2).
  reflexivity.
Qed.

Lemma asc_nulls_last_total a b : asc_nulls_last a b = false -> asc_nulls_last b a = true.
Proof. destruct a, b; simpl; try discriminate; auto. apply str_le_total. Qed.





(* ================================================================== *)
(** * The rest of the storage and of the routes *)

(** ** [parseInt] reads back [toString] *)


Lemma digits_run_uint u acc seen :
  digits_run 10 acc seen (list_ascii_of_string (string_of_uint u)) =
  match u with
  | Decimal.Nil => if seen then Some acc else None
  | _ => Some (uint_value u acc)
  end.
Proof.
  revert acc seen.
  induction u as [|u IH|u IH|u IH|u IH|u IH|u IH|u IH|u IH|u IH|u IH]; intros acc seen;
    [reflexivity|..];
    cbn [string_of_uint list_ascii_of_string digits_run].
  all: match goal with
       | |- context [digit_value ?c] =>
           let v := eval vm_compute in (digit_value c) in change (digit_value c) with v
       end.
  all: cbn [Z.ltb Z.compare Pos.compare Pos.compare_cont uint_value];
       rewrite IH; destruct u; reflexivity.
Qed.

Lemma uint_value_acc u p :
  uint_value u (Z.pos p) = Z.pos (Pos.of_uint_acc u p).
Proof.
  revert p. induction u as [|u IH|u IH|u IH|u IH|u IH|u IH|u IH|u IH|u IH|u IH]; intros p;
    [reflexivity|..]; cbn [uint_value Pos.of_uint_acc]; rewrite <- IH; f_equal;
    rewrite ?Pos2Z.inj_add, Pos2Z.inj_mul; lia.
Qed.

Lemma uint_value_of_uint u : uint_value u 0 = Z.of_N (Pos.of_uint u).
Proof.
  induction u as [|u IH|u IH|u IH|u IH|u IH|u IH|u IH|u IH|u IH|u IH];
    [reflexivity|simpl; exact IH|..]; simpl; apply uint_value_acc.
Qed.

Lemma parseInt_digits u : u <> Decimal.Nil ->
  parseInt (string_of_uint u) = parse_unsigned (list_ascii_of_string (string_of_uint u)).
Proof. destruct u; [contradiction|..]; reflexivity. Qed.

Lemma parse_unsigned_uint u :
  parse_unsigned (list_ascii_of_string (string_of_uint u)) =
  digits_run 10 0 false (list_ascii_of_string (string_of_uint u)).
Proof. destruct u as [|u|u|u|u|u|u|u|u|u|u]; try reflexivity. destruct u; reflexivity. Qed.

Lemma parseInt_uint u : u <> Decimal.Nil ->
  parseInt (string_of_uint u) = Some (Z.of_N (Pos.of_uint u)).
Proof.
  intros Hu. rewrite parseInt_digits, parse_unsigned_uint, digits_run_uint by exact Hu.
  rewrite <- uint_value_of_uint. destruct u; [contradiction|..]; reflexivity.
Qed.

Lemma to_uint_not_nil p : Pos.to_uint p <> Decimal.Nil.
Proof.
  intros H. pose proof (DecimalPos.Unsigned.of_to p) as E. rewrite H in E. discriminate E.
Qed.

(** [parseInt] reads back the decimal text [toString] writes. *)
Lemma parseInt_to_string z : parseInt (to_string z) = Some z.
Proof.
  destruct z as [|p|p]; [reflexivity| |].
  - unfold to_string. cbn [Z.to_N N.to_uint].
    rewrite parseInt_uint by apply to_uint_not_nil.
    rewrite DecimalPos.Unsigned.of_to. reflexivity.
  - unfold to_string, parseInt. cbn [list_ascii_of_string drop_ws].
    replace (is_ws "-") with false by reflexivity.
    change (option_map Z.opp (parse_unsigned (list_ascii_of_string (string_of_uint (Pos.to_uint p))))
            = Some (Z.neg p)).
    rewrite parse_unsigned_uint, digits_run_uint.
    pose proof (to_uint_not_nil p) as Hn.
    assert (V : uint_value (Pos.to_uint p) 0 = Z.pos p)
      by (rewrite uint_value_of_uint, DecimalPos.Unsigned.of_to; reflexivity).
    destruct (Pos.to_uint p); [contradiction|..]; cbn [option_map]; rewrite V; reflexivity.
Qed.

(** ** Statements that only read, statements that keep the invariants *)



Lemma reads_ret {A} (a : A) : reads (ret a).
Proof. intros s o s' H. inversion H; reflexivity. Qed.

Lemma reads_throw {A} e : reads (@throw A e).
Proof. intros s o s' H. inversion H; reflexivity. Qed.

Lemma reads_get : reads get_store.
Proof. intros s o s' H. inversion H; reflexivity. Qed.

Lemma reads_check z : reads (check_int4 z).
Proof. unfold check_int4. destruct (int4_ok z); [apply reads_ret | apply reads_throw]. Qed.

Lemma reads_nextval z : reads (nextval z).
Proof. unfold nextval. destruct (int4_ok z); [apply reads_ret | apply reads_throw]. Qed.

Lemma reads_bind {A B} (m : M A) (f : A -> M B) :
  reads m -> (forall a, reads (f a)) -> reads (bind m f).
Proof.
  intros Hm Hf s o s'' H. unfold bind in H.
  destruct (m s) as [[a|e] s'] eqn:E.
  - rewrite (Hf a _ _ _ H). exact (Hm _ _ _ E).
  - inversion H; subst. exact (Hm _ _ _ E).
Qed.

Lemma reads_get_bind {A} (f : store -> M A) :
  (forall s0, reads (f s0)) -> reads (bind get_store f).
Proof. intros Hf. apply reads_bind; [apply reads_get | exact Hf]. Qed.

Lemma reads_bind_texts ts : reads (bind_texts ts).
Proof. unfold bind_texts. destruct (existsb has_nul ts); [apply reads_throw | apply reads_ret]. Qed.

Lemma reads_bind_search q : reads (bind_search q).
Proof.
  unfold bind_search. destruct q as [q|]; [|apply reads_ret].
  destruct (String.eqb q ""); [apply reads_ret | apply reads_bind_texts].
Qed.

Create HintDb reads.
Global Hint Resolve reads_ret reads_throw reads_get reads_check reads_nextval reads_bind
  reads_bind_texts reads_bind_search : reads.

Lemma reads_getEmployeesForApartment id : reads (getEmployeesForApartment id).
Proof. unfold getEmployeesForApartment. auto with reads. Qed.

Lemma reads_getApartmentsForEmployee id : reads (getApartmentsForEmployee id).
Proof. unfold getApartmentsForEmployee. auto with reads. Qed.

Global Hint Resolve reads_getEmployeesForApartment reads_getApartmentsForEmployee : reads.

Lemma reads_with_employees rows : reads (with_employees rows).
Proof. induction rows as [|a rows IH]; simpl; auto with reads. Qed.

Lemma reads_with_apartments rows : reads (with_apartments rows).
Proof. induction rows as [|e rows IH]; simpl; auto with reads. Qed.

Global Hint Resolve reads_with_employees reads_with_apartments : reads.

Lemma reads_getApartment id : reads (getApartment id).
Proof.
  unfold getApartment, select_apartments_by_id. apply reads_bind; [auto with reads|].
  intros [|a rows]; auto with reads.
Qed.

Lemma reads_getEmployee id : reads (getEmployee id).
Proof.
  unfold getEmployee, select_employees_by_id. apply reads_bind; [auto with reads|].
  intros [|e rows]; auto with reads.
Qed.

Lemma reads_getApartments opts : reads (getApartments opts).
Proof. unfold getApartments. auto with reads. Qed.

Lemma reads_getEmployees q : reads (getEmployees q).
Proof. unfold getEmployees. auto with reads. Qed.

Lemma reads_getApartmentsByMonth y m : reads (getApartmentsByMonth y m).
Proof. unfold getApartmentsByMonth. auto with reads. Qed.

Lemma reads_getApartmentsByDate y m d : reads (getApartmentsByDate y m d).
Proof. unfold getApartmentsByDate. auto with reads. Qed.

Lemma reads_getStatistics : reads getStatistics.
Proof. unfold getStatistics. auto with reads. Qed.

(** From the propositions back to the boolean invariant. *)
Lemma NoDup_nodupb {A} (eqb : A -> A -> bool) l :
  (forall x y, eqb x y = true <-> x = y) -> NoDup l -> nodupb eqb l = true.
Proof.
  intros Heq. induction 1 as [|x l Hx Hnd IH]; simpl; [reflexivity|].
  rewrite IH, andb_true_r. apply negb_true_iff, not_true_is_false. intros E.
  apply existsb_exists in E as [y [Hy E]]. apply Heq in E. subst. contradiction.
Qed.

Lemma wf_props_store s : wf_props s -> wf_store s = true.
Proof.
  intros W. unfold wf_store. rewrite !andb_true_iff, !forallb_forall.
  repeat split.
  - intros a Ha. destruct (wf_apt_ids s W a Ha) as [H1 H2]. now rewrite H1, (proj2 (Z.ltb_lt _ _) H2).
  - apply NoDup_nodupb; [exact Z_eqb_iff | exact (wf_apt_nodup s W)].
  - intros e He. destruct (wf_emp_ids s W e He) as [H1 H2]. now rewrite H1, (proj2 (Z.ltb_lt _ _) H2).
  - apply NoDup_nodupb; [exact Z_eqb_iff | exact (wf_emp_nodup s W)].
  - intros asg Ha. destruct (wf_fk s W asg Ha) as [H1 H2]. now rewrite H1, H2.
  - apply NoDup_nodupb; [exact pair_eqb_eq | exact (wf_pairs_nodup s W)].
Qed.

Lemma reads_keeps_wf {A} (m : M A) : reads m -> keeps_wf m.
Proof. intros Hm s o s' Hwf H. rewrite (Hm _ _ _ H). exact Hwf. Qed.

Lemma keeps_wf_bind {A B} (m : M A) (f : A -> M B) :
  keeps_wf m -> (forall a, keeps_wf (f a)) -> keeps_wf (bind m f).
Proof.
  intros Hm Hf s o s'' Hwf H. unfold bind in H.
  destruct (m s) as [[a|e] s'] eqn:E.
  - exact (Hf a _ _ _ (Hm _ _ _ Hwf E) H).
  - inversion H; subst. exact (Hm _ _ _ Hwf E).
Qed.

Lemma keeps_wf_for_each {A} (f : A -> M unit) xs :
  (forall x, keeps_wf (f x)) -> keeps_wf (for_each f xs).
Proof.
  intros Hf. induction xs as [|x xs IH]; simpl; [apply reads_keeps_wf, reads_ret|].
  apply keeps_wf_bind; [apply Hf | intros _; exact IH].
Qed.

(** The invariants only look at the tables and at the two sequences of
    [apartments] and [employees], which never go back. *)
Lemma wf_same_tables s s' :
  wf_props s -> apartments s' = apartments s -> employees_tbl s' = employees_tbl s ->
  assignments s' = assignments s ->
  apartments_seq s <= apartments_seq s' -> employees_seq s <= employees_seq s' -> wf_props s'.
Proof.
  intros W Ha He Hs Hq1 Hq2.
  assert (Hae : forall x, apartment_exists s' x = apartment_exists s x)
    by (intros x; unfold apartment_exists; now rewrite Ha).
  assert (Hee : forall x, employee_exists s' x = employee_exists s x)
    by (intros x; unfold employee_exists; now rewrite He).
  constructor; rewrite ?Ha, ?He, ?Hs, ?Hae, ?Hee.
  - intros a Hin. destruct (wf_apt_ids s W a Hin). split; [assumption | lia].
  - exact (wf_apt_nodup s W).
  - intros e Hin. destruct (wf_emp_ids s W e Hin). split; [assumption | lia].
  - exact (wf_emp_nodup s W).
  - intros asg Hin. rewrite Hae, Hee. exact (wf_fk s W asg Hin).
  - exact (wf_pairs_nodup s W).
Qed.

Lemma NoDup_snoc {A} (l : list A) x : NoDup l -> ~ In x l -> NoDup (l ++ [x]).
Proof.
  intros Hnd Hx. apply (Permutation_NoDup (Permutation_app_comm [x] l)).
  simpl. constructor; assumption.
Qed.

Lemma NoDup_map_filter {A B} (f : A -> B) (p : A -> bool) l :
  NoDup (map f l) -> NoDup (map f (filter p l)).
Proof.
  induction l as [|x l IH]; simpl; intros H; [constructor|].
  inversion H as [|? ? Hx Hnd]; subst.
  destruct (p x); simpl; [|now apply IH].
  constructor; [|now apply IH].
  intros Hin. apply Hx. apply in_map_iff in Hin as [y [Hy Hin]].
  apply filter_In in Hin as [Hin _]. rewrite <- Hy. now apply in_map.
Qed.

Lemma createAssignment_seqs a e s o s' :
  createAssignment a e s = (o, s') ->
  apartments_seq s' = apartments_seq s /\ employees_seq s' = employees_seq s.
Proof.
  unfold createAssignment, bind, check_int4, nextval, get_store, put_store, ret, throw.
  repeat match goal with
         | |- context [if ?b then _ else _] => destruct b
         end; simpl; intros H; inversion H; subst; auto.
Qed.

Lemma createAssignment_keeps_wf a e : keeps_wf (createAssignment a e).
Proof.
  intros s o s' Hwf H. apply wf_props_store. pose proof (wf_store_props s Hwf) as W.
  destruct (createAssignment_seqs a e s o s' H) as [Q1 Q2].
  destruct (createAssignment_cases a e s) as
    [(H1 & H2 & H3 & H4 & H5 & H6 & E) | (msg & s1 & E & Ea & Ee & Es)];
    rewrite E in H; inversion H; subst; clear H.
  - constructor; simpl.
    + exact (wf_apt_ids s W).
    + exact (wf_apt_nodup s W).
    + exact (wf_emp_ids s W).
    + exact (wf_emp_nodup s W).
    + intros asg Hin. apply in_app_or in Hin as [Hin|[<-|[]]].
      * exact (wf_fk s W asg Hin).
      * split; assumption.
    + rewrite map_app. apply NoDup_snoc; [exact (wf_pairs_nodup s W)|].
      intros Hin. apply pair_stored_iff in Hin. unfold asg_pair in Hin. simpl in Hin. congruence.
  - apply (wf_same_tables s); auto; lia.
Qed.

Lemma deleteAssignmentsByApartment_keeps_wf id : keeps_wf (deleteAssignmentsByApartment id).
Proof.
  intros s o s' Hwf H. apply wf_props_store. pose proof (wf_store_props s Hwf) as W.
  unfold deleteAssignmentsByApartment, bind, check_int4 in H.
  destruct (int4_ok id); inversion H; subst; clear H; [|exact (wf_store_props _ Hwf)].
  constructor; simpl.
  - exact (wf_apt_ids s W).
  - exact (wf_apt_nodup s W).
  - exact (wf_emp_ids s W).
  - exact (wf_emp_nodup s W).
  - intros asg Hin. apply filter_In in Hin as [Hin _]. exact (wf_fk s W asg Hin).
  - apply NoDup_map_filter, (wf_pairs_nodup s W).
Qed.

Lemma insert_apartment_keeps_wf a : keeps_wf (insert_apartment a).
Proof.
  intros s o s' Hwf H. apply wf_props_store. pose proof (wf_store_props s Hwf) as W.
  destruct (insert_apartment_throws a s) as [msg E].
  assert (Hs : s' = snd (insert_apartment a s)) by (rewrite H; reflexivity).
  rewrite E in Hs. cbn [snd] in Hs. subst s'.
  destruct (existsb has_nul (payload_texts a)); [exact W|].
  destruct (price_of_payload a); [|exact W].
  destruct (int4_ok (apartments_seq s)); [|exact W].
  apply (wf_same_tables s); simpl; auto; lia.
Qed.

Lemma createEmployee_keeps_wf e : keeps_wf (createEmployee e).
Proof.
  intros s o s' Hwf H. apply wf_props_store. pose proof (wf_store_props s Hwf) as W.
  unfold createEmployee, bind_texts, bind, get_store, nextval, put_store, ret, throw in H.
  destruct (existsb has_nul _); simpl in H; [inversion H; subst; exact W|].
  destruct (int4_ok (employees_seq s)); simpl in H; inversion H; subst; clear H; [|exact W].
  apply (wf_same_tables s); simpl; auto; lia.
Qed.

Lemma set_fields_id a pr row : Apartment.id (set_fields a pr row) = Apartment.id row.
Proof. reflexivity. Qed.

Lemma update_apartment_keeps_wf id a : keeps_wf (update_apartment id a).
Proof.
  intros s o s' Hwf H. apply wf_props_store. pose proof (wf_store_props s Hwf) as W.
  unfold update_apartment, bind, check_int4, get_store, put_store, ret, throw in H.
  destruct (int4_ok id); simpl in H; [|inversion H; subst; exact W].
  destruct (bind_texts (payload_texts a) s) as [[[]|e] s1] eqn:Eb;
    apply bind_texts_state in Eb; subst s1; [|inversion H; subst; exact W].
  destruct (price_of_payload a) as [pr|]; inversion H; subst; clear H; [|exact W].
  set (upd := fun row => if Apartment.id row =? id then set_fields a pr row else row).
  assert (Hids : map Apartment.id (map upd (apartments s)) = map Apartment.id (apartments s)).
  { rewrite map_map. apply map_ext. intros row. unfold upd. now destruct (Apartment.id row =? id). }
  constructor; simpl; fold upd.
  - intros x Hin. apply in_map_iff in Hin as [row [<- Hin]].
    replace (Apartment.id (upd row)) with (Apartment.id row)
      by (unfold upd; now destruct (Apartment.id row =? id)).
    exact (wf_apt_ids s W row Hin).
  - rewrite Hids. exact (wf_apt_nodup s W).
  - exact (wf_emp_ids s W).
  - exact (wf_emp_nodup s W).
  - intros asg Hin. destruct (wf_fk s W asg Hin) as [F1 F2]. split; [|exact F2].
    unfold apartment_exists in *. simpl.
    rewrite <- (existsb_map_comp (fun x => x =? Assignment.apartment_id asg) Apartment.id), Hids,
      existsb_map_comp. exact F1.
  - exact (wf_pairs_nodup s W).
Qed.

Lemma delete_apartments_keeps_wf id : keeps_wf (delete_apartments id).
Proof.
  intros s o s' Hwf H. apply wf_props_store. pose proof (wf_store_props s Hwf) as W.
  unfold delete_apartments, bind, check_int4, get_store, put_store, ret, throw in H.
  destruct (int4_ok id); simpl in H; inversion H; subst; clear H; [|exact W].
  constructor; simpl.
  - intros x Hin. apply filter_In in Hin as [Hin _]. exact (wf_apt_ids s W x Hin).
  - apply NoDup_map_filter, (wf_apt_nodup s W).
  - exact (wf_emp_ids s W).
  - exact (wf_emp_nodup s W).
  - intros asg Hin. apply filter_In in Hin as [Hin Hne].
    destruct (wf_fk s W asg Hin) as [F1 F2]. split; [|exact F2].
    apply apartment_exists_iff in F1 as [x [Hx Hid]].
    apply apartment_exists_iff. exists x. split; [|exact Hid].
    apply filter_In. split; [exact Hx|]. now rewrite Hid.
  - apply NoDup_map_filter, (wf_pairs_nodup s W).
Qed.

Lemma delete_employees_keeps_wf id : keeps_wf (delete_employees id).
Proof.
  intros s o s' Hwf H. apply wf_props_store. pose proof (wf_store_props s Hwf) as W.
  unfold delete_employees, bind, check_int4, get_store, put_store, ret, throw in H.
  destruct (int4_ok id); simpl in H; inversion H; subst; clear H; [|exact W].
  constructor; simpl.
  - exact (wf_apt_ids s W).
  - exact (wf_apt_nodup s W).
  - intros x Hin. apply filter_In in Hin as [Hin _]. exact (wf_emp_ids s W x Hin).
  - apply NoDup_map_filter, (wf_emp_nodup s W).
  - intros asg Hin. apply filter_In in Hin as [Hin Hne].
    destruct (wf_fk s W asg Hin) as [F1 F2]. split; [exact F1|].
    apply employee_exists_iff in F2 as [x [Hx Hid]].
    apply employee_exists_iff. exists x. split; [|exact Hid].
    apply filter_In. split; [exact Hx|]. now rewrite Hid.
  - apply NoDup_map_filter, (wf_pairs_nodup s W).
Qed.

Create HintDb wf.
Global Hint Resolve createAssignment_keeps_wf deleteAssignmentsByApartment_keeps_wf
  insert_apartment_keeps_wf createEmployee_keeps_wf update_apartment_keeps_wf
  delete_apartments_keeps_wf delete_employees_keeps_wf keeps_wf_bind keeps_wf_for_each : wf.
Global Hint Resolve reads_keeps_wf : wf.
Global Hint Extern 1 (reads _) => auto with reads : wf.

(** Every write of [DatabaseStorage] keeps [wf_store], whatever its
    outcome: apartment and employee ids in the [integer] range and below
    the next value of their sequence, unique apartment ids and unique
    employee ids, assignment foreign keys that resolve, and a unique
    (apartment, employee) pair. *)
Theorem storage_writes_keep_wf :
  (forall a e, keeps_wf (createAssignment a e)) /\
  (forall id, keeps_wf (deleteAssignmentsByApartment id)) /\
  (forall a L, keeps_wf (createApartment a L)) /\
  (forall id a L, keeps_wf (updateApartment id a L)) /\
  (forall id, keeps_wf (deleteApartment id)) /\
  (forall e, keeps_wf (createEmployee e)) /\
  (forall id, keeps_wf (deleteEmployee id)).
Proof.
  split; [|split; [|split; [|split; [|split; [|split]]]]]; intros.
  - apply createAssignment_keeps_wf.
  - apply deleteAssignmentsByApartment_keeps_wf.
  - unfold createApartment, createApartment_after_insert. auto 7 with wf.
  - unfold updateApartment.
    apply keeps_wf_bind; [auto with wf|intros _].
    apply keeps_wf_bind; [auto with wf|intros _].
    apply keeps_wf_bind; [auto with wf|intros _].
    apply keeps_wf_bind; [apply reads_keeps_wf, reads_getApartment|intros u].
    destruct u; apply reads_keeps_wf; auto with reads.
  - apply delete_apartments_keeps_wf.
  - apply createEmployee_keeps_wf.
  - apply delete_employees_keeps_wf.
Qed.

Lemma run_reads {A} (m : M A) s : reads m -> snd (run m s) = s.
Proof. intros Hm. unfold run. destruct (m s) as [o s'] eqn:E. exact (Hm _ _ _ E). Qed.

(** The GET routes and the read methods of the storage never change the
    store, whatever their parameters and outcome. *)
Theorem read_routes_keep_store s sortBy search param pyear pmonth pday :
  snd (get_apartments_route sortBy search s) = s /\
  snd (get_apartment_route param s) = s /\
  snd (get_employees_route search s) = s /\
  snd (get_employee_route param s) = s /\
  snd (calendar_month_route pyear pmonth s) = s /\
  snd (calendar_day_route pyear pmonth pday s) = s /\
  snd (statistics_route s) = s.
Proof.
  split; [|split; [|split; [|split; [|split; [|split]]]]].
  - unfold get_apartments_route. destruct (js_search search) as [q|e]; [|reflexivity].
    pose proof (run_reads _ s (reads_getApartments (mkOptions (js_sort sortBy) q))).
    destruct (run _ s) as [[] s']; exact H.
  - unfold get_apartment_route. destruct (parseInt param) as [id|]; [|reflexivity].
    pose proof (run_reads _ s (reads_getApartment id)).
    destruct (run _ s) as [[[]|] s']; exact H.
  - unfold get_employees_route. destruct (js_search search) as [q|e]; [|reflexivity].
    pose proof (run_reads _ s (reads_getEmployees q)).
    destruct (run _ s) as [[] s']; exact H.
  - unfold get_employee_route. destruct (parseInt param) as [id|]; [|reflexivity].
    pose proof (run_reads _ s (reads_getEmployee id)).
    destruct (run _ s) as [[[]|] s']; exact H.
  - unfold calendar_month_route.
    destruct (parseInt pyear) as [y|], (parseInt pmonth) as [m|]; try reflexivity.
    destruct (_ || _); [reflexivity|].
    pose proof (run_reads _ s (reads_getApartmentsByMonth y m)).
    destruct (run _ s) as [[] s']; exact H.
  - unfold calendar_day_route.
    destruct (parseInt pyear) as [y|], (parseInt pmonth) as [m|], (parseInt pday) as [d|];
      try reflexivity.
    destruct (_ || _); [reflexivity|].
    pose proof (run_reads _ s (reads_getApartmentsByDate y m d)).
    destruct (run _ s) as [[] s']; exact H.
  - unfold statistics_route. pose proof (run_reads _ s reads_getStatistics).
    destruct (run _ s) as [[] s']; exact H.
Qed.

(** ** The joins under the invariants *)

Lemma filter_all_false {A} (f : A -> bool) l :
  (forall x, In x l -> f x = false) -> filter f l = [].
Proof.
  induction l as [|x l IH]; simpl; intros H; [reflexivity|].
  rewrite H by (left; reflexivity). apply IH. intros y Hy. apply H. now right.
Qed.

Lemma map_const_unique_pair {B} (x : B) (p : Assignment.t -> bool) l a e :
  NoDup (map asg_pair l) -> (forall asg, p asg = true <-> asg_pair asg = (a, e)) ->
  map (fun _ => x) (filter p l) = if existsb p l then [x] else [].
Proof.
  intros Hnd Hp. revert Hnd. induction l as [|asg l IH]; simpl; intros Hnd; [reflexivity|].
  inversion Hnd as [|? ? Hnotin Hnd']; subst.
  destruct (p asg) eqn:E; simpl.
  - f_equal. apply Hp in E.
    destruct (filter p l) as [|asg' l'] eqn:F; [reflexivity|].
    exfalso. assert (Hin : In asg' (filter p l)) by (rewrite F; left; reflexivity).
    apply filter_In in Hin as [Hin Hp']. apply Hp in Hp'. apply Hnotin.
    rewrite E, <- Hp'. now apply in_map.
  - now apply IH.
Qed.

Lemma pair_stored_swap s a e :
  existsb (fun asg => (Assignment.employee_id asg =? e) && (Assignment.apartment_id asg =? a))
          (assignments s) = pair_stored s a e.
Proof.
  unfold pair_stored. induction (assignments s) as [|asg l IH]; simpl; [reflexivity|].
  now rewrite andb_comm, IH.
Qed.

Lemma employees_for_apartment_wf s aid :
  wf_store s = true ->
  employees_for_apartment s aid =
    map (fun e => EmployeeName.mk (Employee.id e) (Employee.first_name e) (Employee.last_name e))
        (filter (fun e => pair_stored s aid (Employee.id e)) (employees_tbl s)).
Proof.
  intros Hwf. pose proof (wf_pairs_nodup s (wf_store_props s Hwf)) as Hnd.
  unfold employees_for_apartment.
  induction (employees_tbl s) as [|e l IH]; simpl; [reflexivity|].
  rewrite (map_const_unique_pair _ _ _ aid (Employee.id e) Hnd).
  - rewrite pair_stored_swap. destruct (pair_stored s aid (Employee.id e)); simpl; now rewrite IH.
  - intros asg. unfold asg_pair. rewrite andb_true_iff, !Z.eqb_eq.
    split; [intros [H1 H2]; now rewrite H1, H2 | intros H; inversion H; split; congruence].
Qed.

Lemma apartments_for_employee_wf s eid :
  wf_store s = true ->
  apartments_for_employee s eid =
    map apartment_fields (filter (fun a => pair_stored s (Apartment.id a) eid) (apartments s)).
Proof.
  intros Hwf. pose proof (wf_pairs_nodup s (wf_store_props s Hwf)) as Hnd.
  unfold apartments_for_employee.
  induction (apartments s) as [|a l IH]; simpl; [reflexivity|].
  rewrite (map_const_unique_pair _ _ _ (Apartment.id a) eid Hnd).
  - fold (pair_stored s (Apartment.id a) eid).
    destruct (pair_stored s (Apartment.id a) eid); simpl; now rewrite IH.
  - intros asg. unfold asg_pair. rewrite andb_true_iff, !Z.eqb_eq.
    split; [intros [H1 H2]; now rewrite H1, H2 | intros H; inversion H; split; congruence].
Qed.

Lemma pair_stored_exists s a e :
  wf_props s -> pair_stored s a e = true ->
  apartment_exists s a = true /\ employee_exists s e = true.
Proof.
  intros W H. unfold pair_stored in H. apply existsb_exists in H as [asg [Hin H]].
  apply andb_true_iff in H as [H1 H2]. apply Z.eqb_eq in H1, H2. subst.
  exact (wf_fk s W asg Hin).
Qed.

(** The joins through [assignments] list each employee of an apartment, and
    each apartment of an employee, exactly once, and exactly those paired
    in the [assignments] table: every stored row with a stored pair is
    listed, and every entry listed is such a row. *)
Theorem joins_exact s :
  wf_store s = true ->
  (forall aid, NoDup (map EmployeeName.id (employees_for_apartment s aid)) /\
     (forall e, In e (employees_tbl s) ->
       (In (EmployeeName.mk (Employee.id e) (Employee.first_name e) (Employee.last_name e))
           (employees_for_apartment s aid) <-> pair_stored s aid (Employee.id e) = true)) /\
     (forall en, In en (employees_for_apartment s aid) ->
       exists e, In e (employees_tbl s) /\ pair_stored s aid (Employee.id e) = true /\
         en = EmployeeName.mk (Employee.id e) (Employee.first_name e) (Employee.last_name e))) /\
  (forall eid, NoDup (map ApartmentFields.id (apartments_for_employee s eid)) /\
     (forall a, In a (apartments s) ->
       (In (apartment_fields a) (apartments_for_employee s eid) <->
        pair_stored s (Apartment.id a) eid = true)) /\
     (forall af, In af (apartments_for_employee s eid) ->
       exists a, In a (apartments s) /\ pair_stored s (Apartment.id a) eid = true /\
         af = apartment_fields a)).
Proof.
  intros Hwf. pose proof (wf_store_props s Hwf) as W. split; intros k.
  - rewrite employees_for_apartment_wf by exact Hwf. split; [|split].
    + rewrite map_map. apply NoDup_map_filter. exact (wf_emp_nodup s W).
    + intros e He. rewrite in_map_iff. split.
      * intros [e' [Ee Hin]]. apply filter_In in Hin as [_ Hp].
        assert (Hid : Employee.id e' = Employee.id e) by (injection Ee; auto).
        now rewrite <- Hid.
      * intros Hp. exists e. split; [reflexivity|]. now apply filter_In.
    + intros en Hen. apply in_map_iff in Hen as [e [<- Hin]].
      apply filter_In in Hin as [Hin Hp]. exists e. auto.
  - rewrite apartments_for_employee_wf by exact Hwf. split; [|split].
    + rewrite map_map. apply NoDup_map_filter. exact (wf_apt_nodup s W).
    + intros a Ha. rewrite in_map_iff. split.
      * intros [a' [Ea Hin]]. apply filter_In in Hin as [_ Hp].
        assert (Hid : Apartment.id a' = Apartment.id a)
          by exact (f_equal ApartmentFields.id Ea).
        now rewrite <- Hid.
      * intros Hp. exists a. split; [reflexivity|]. now apply filter_In.
    + intros af Haf. apply in_map_iff in Haf as [a [<- Hin]].
      apply filter_In in Hin as [Hin Hp]. exists a. auto.
Qed.

(** ** Listing and reading employees *)

Lemma with_apartments_ok rows s :
  forallb (fun e => int4_ok (Employee.id e)) rows = true ->
  with_apartments rows s =
    (Ok (map (fun e => mkEWA e (apartments_for_employee s (Employee.id e))) rows), s).
Proof.
  induction rows as [|e rows IH]; simpl; intros H; [reflexivity|].
  apply andb_prop in H as [H1 H2].
  unfold bind, getApartmentsForEmployee, check_int4. rewrite H1.
  simpl. rewrite (IH H2). reflexivity.
Qed.

Lemma by_last_then_first_total a b :
  by_last_then_first a b = false -> by_last_then_first b a = true.
Proof.
  unfold by_last_then_first, str_lt, String.ltb.
  rewrite (String.compare_antisym (Employee.last_name b) (Employee.last_name a)).
  destruct (String.compare (Employee.last_name a) (Employee.last_name b)) eqn:E;
    simpl; intros H; [|discriminate H|reflexivity].
  apply String.compare_eq_iff in E. rewrite E, String.eqb_refl in *. simpl in *.
  now apply str_le_total.
Qed.

Lemma employee_search_filter_In q rows e :
  q <> ""%string -> plain q = true ->
  In e (employee_search_filter (Some q) rows) <->
  In e rows /\ (contains (Employee.first_name e) q || contains (Employee.last_name e) q) = true.
Proof.
  intros Hne Hq. unfold employee_search_filter.
  destruct (String.eqb q "") eqn:E; [apply String.eqb_eq in E; contradiction|].
  cbv zeta. rewrite filter_In. unfold employee_search_condition.
  rewrite !like_plain by exact Hq.
  destruct (contains (Employee.first_name e) q), (contains (Employee.last_name e) q); reflexivity.
Qed.

Lemma employees_query_incl search s : incl (employees_query search s) (employees_tbl s).
Proof.
  intros e He. unfold employees_query in He.
  apply (Permutation_in _ (sort_by_perm _ _)) in He.
  unfold employee_search_filter in He. destruct search as [q|]; [|exact He].
  destruct (String.eqb q ""); [exact He|]. apply filter_In in He. exact (proj1 He).
Qed.

(** [getEmployees] never writes.  A search whose pattern holds a NUL
    byte is refused when the query is bound.  Any other search succeeds;
    the rows come ordered by last then first name, each with its
    apartments; a non-empty search keeps the employees whose first or last
    name contains it, no search keeps all. *)
Theorem getEmployees_spec search s :
  wf_store s = true ->
  (search_bindable search = false -> exists msg, getEmployees search s = (Throw msg, s)) /\
  (search_bindable search = true ->
  exists res, getEmployees search s = (Ok res, s) /\
    Sorted (fun a b => by_last_then_first a b = true) (map employee res) /\
    (forall r, In r res ->
       employee_apartments r = apartments_for_employee s (Employee.id (employee r))) /\
    (forall q, search = Some q -> q <> ""%string -> plain q = true ->
       forall e, In e (map employee res) <->
         In e (employees_tbl s) /\
         (contains (Employee.first_name e) q || contains (Employee.last_name e) q) = true) /\
    ((search = None \/ search = Some ""%string) ->
       Permutation (map employee res) (employees_tbl s))).
Proof.
  intros Hwf. pose proof (wf_store_props s Hwf) as W. split.
  { intros Hb. destruct (bind_search_fails search s Hb) as [msg E].
    exists msg. unfold getEmployees, bind. rewrite E. reflexivity. }
  intros Hb.
  exists (map (fun e => mkEWA e (apartments_for_employee s (Employee.id e)))
              (employees_query search s)).
  assert (Hm : map employee (map (fun e => mkEWA e (apartments_for_employee s (Employee.id e)))
                                 (employees_query search s)) = employees_query search s)
    by (rewrite map_map; apply map_id).
  split; [|split; [|split; [|split]]].
  - unfold getEmployees. rewrite (bind_ok _ _ s tt s (bind_search_ok search s Hb)).
    unfold bind, get_store. apply with_apartments_ok.
    apply forallb_forall. intros e He.
    exact (proj1 (wf_emp_ids s W e (employees_query_incl search s e He))).
  - rewrite Hm. apply sort_by_sorted, by_last_then_first_total.
  - intros r Hr. apply in_map_iff in Hr as [e [<- _]]. reflexivity.
  - intros q -> Hne Hq e. rewrite Hm. unfold employees_query.
    rewrite <- employee_search_filter_In by assumption.
    split; apply Permutation_in; [|apply Permutation_sym]; apply sort_by_perm.
  - intros Hs. rewrite Hm. unfold employees_query. rewrite sort_by_perm.
    destruct Hs as [-> | ->]; reflexivity.
Qed.

(** [getEmployee] returns nothing for an absent id, and the employee with
    its apartments for a stored one. *)
Theorem getEmployee_spec s id :
  wf_store s = true -> int4_ok id = true ->
  (employee_exists s id = false -> getEmployee id s = (Ok None, s)) /\
  (forall e, In e (employees_tbl s) -> Employee.id e = id ->
     getEmployee id s = (Ok (Some (mkEWA e (apartments_for_employee s id))), s)).
Proof.
  intros Hwf Hint. pose proof (wf_store_props s Hwf) as W. split.
  - intros Hex. unfold getEmployee, select_employees_by_id, bind, check_int4. rewrite Hint. simpl.
    unfold employee_exists in Hex. rewrite (filter_none_id Employee.id _ _ Hex). reflexivity.
  - intros e He <-. unfold getEmployee, select_employees_by_id, bind, check_int4.
    rewrite Hint. simpl.
    rewrite (filter_unique_id Employee.id _ e (wf_emp_nodup s W) He).
    unfold getApartmentsForEmployee, bind, check_int4. rewrite Hint. reflexivity.
Qed.

Lemma apartments_for_unknown_employee s eid :
  wf_store s = true -> employee_exists s eid = false -> apartments_for_employee s eid = [].
Proof.
  intros Hwf Hex. pose proof (wf_store_props s Hwf) as W.
  rewrite apartments_for_employee_wf by exact Hwf.
  rewrite filter_all_false; [reflexivity|].
  intros a _. apply not_true_is_false. intros Hp.
  destruct (pair_stored_exists s _ _ W Hp) as [_ He]. congruence.
Qed.

Lemma employee_exists_seq s : wf_props s -> employee_exists s (employees_seq s) = false.
Proof.
  intros W. apply not_true_is_false. intros H. apply employee_exists_iff in H as [e [He Hid]].
  destruct (wf_emp_ids s W e He). lia.
Qed.

(** POST /employees with a valid body answers 500: the row it inserts
    has no [user_id], which the schema declares [NOT NULL].  No table
    changes; the employees sequence moves by one when the names hold no
    NUL byte and the sequence is not exhausted. *)
Theorem post_employee_500 s e :
  exists s',
    post_employee (ValidEmployee e) s = (mkResponse 500 (Message "Error creating employee"), s') /\
    apartments s' = apartments s /\ employees_tbl s' = employees_tbl s /\
    assignments s' = assignments s /\
    apartments_seq s' = apartments_seq s /\ assignments_seq s' = assignments_seq s /\
    employees_seq s' =
      (if existsb has_nul [InsertEmployee.first_name e; InsertEmployee.last_name e]
       then employees_seq s
       else if int4_ok (employees_seq s) then employees_seq s + 1 else employees_seq s).
Proof.
  unfold post_employee, run, createEmployee, bind_texts, bind, get_store, nextval, put_store,
    ret, throw.
  destruct (existsb has_nul [InsertEmployee.first_name e; InsertEmployee.last_name e]);
    [eexists; repeat split; reflexivity|].
  destruct (int4_ok (employees_seq s)); eexists; repeat split; reflexivity.
Qed.

(** ** The day view *)

Lemma by_start_time_total a b : by_start_time a b = false -> by_start_time b a = true.
Proof. unfold by_start_time. apply asc_nulls_last_total. Qed.

Lemma day_query_incl y m d s : incl (day_query y m d s) (apartments s).
Proof.
  intros a Ha. unfold day_query in Ha.
  apply (Permutation_in _ (sort_by_perm _ _)), filter_In in Ha. exact (proj1 Ha).
Qed.

Lemma month_query_incl y m s : incl (month_query y m s) (apartments s).
Proof.
  intros a Ha. unfold month_query in Ha.
  apply (Permutation_in _ (sort_by_perm _ _)), filter_In in Ha. exact (proj1 Ha).
Qed.

Lemma wf_rows_int4 s rows :
  wf_store s = true -> incl rows (apartments s) ->
  forallb (fun a => int4_ok (Apartment.id a)) rows = true.
Proof.
  intros Hwf Hincl. apply forallb_forall. intros a Ha.
  exact (proj1 (wf_apt_ids s (wf_store_props s Hwf) a (Hincl a Ha))).
Qed.

(** [getApartmentsByDate] succeeds without writing and returns the
    apartments whose cleaning date is the given day, ordered by start
    time, each with its employees. *)
Theorem getApartmentsByDate_rows y m d s :
  wf_store s = true ->
  exists res, getApartmentsByDate y m d s = (Ok res, s) /\
    Permutation (map apartment res)
      (filter (fun a => String.eqb (Apartment.cleaning_date a) (date_of_day y m d)) (apartments s)) /\
    Sorted (fun a b => by_start_time a b = true) (map apartment res) /\
    (forall r, In r res -> employees r = employees_for_apartment s (Apartment.id (apartment r))).
Proof.
  intros Hwf.
  exists (map (fun a => mkAWE a (employees_for_apartment s (Apartment.id a))) (day_query y m d s)).
  assert (Hm : map apartment (map (fun a => mkAWE a (employees_for_apartment s (Apartment.id a)))
                                  (day_query y m d s)) = day_query y m d s)
    by (rewrite map_map; apply map_id).
  split; [|split; [|split]].
  - unfold getApartmentsByDate, bind, get_store. apply with_employees_ok.
    apply (wf_rows_int4 s); [exact Hwf | apply day_query_incl].
  - rewrite Hm. apply sort_by_perm.
  - rewrite Hm. apply sort_by_sorted, by_start_time_total.
  - intros r Hr. apply in_map_iff in Hr as [a [<- _]]. reflexivity.
Qed.

Lemma str_append_assoc (a b c : string) : ((a ++ b) ++ c)%string = (a ++ b ++ c)%string.
Proof. induction a as [|x a IH]; simpl; [reflexivity|]. now rewrite IH. Qed.

Lemma str_length_append (a b : string) : String.length (a ++ b) = (String.length a + String.length b)%nat.
Proof. induction a as [|x a IH]; simpl; [reflexivity|]. now rewrite IH. Qed.

Lemma iso_date_length s d : iso_date s = Some d -> String.length s = 10%nat.
Proof.
  intros H.
  destruct (iso_date_shape s d H)
    as (y1 & y2 & y3 & y4 & m1 & m2 & d1 & d2 & a1 & a2 & a3 & a4 & b1 & b2 & c1 & c2 & -> & _).
  reflexivity.
Qed.

(** Replacing the day of a ['YYYY-MM-01'] text by two digits. *)
Lemma iso_date_set_day P c1 c2 a b y m :
  iso_date (P ++ "01") = Some (y, m, 1) -> dec_digit c1 = Some a -> dec_digit c2 = Some b ->
  iso_date (P ++ String c1 (String c2 EmptyString)) = Some (y, m, a * 10 + b).
Proof.
  intros H H1 H2. pose proof (iso_date_length _ _ H) as Hl.
  rewrite str_length_append in Hl. simpl in Hl.
  destruct P as [|x1 [|x2 [|x3 [|x4 [|x5 [|x6 [|x7 [|x8 [|x9 P]]]]]]]]]; simpl in Hl; try lia.
  cbn [append iso_date] in H |- *. rewrite H1, H2.
  destruct (dec_digit x1), (dec_digit x2), (dec_digit x3), (dec_digit x4),
    (dec_digit x6), (dec_digit x7); try discriminate H.
  destruct (ascii_eqb x5 "-" && ascii_eqb x8 "-"); [|discriminate H].
  inversion H. reflexivity.
Qed.

Lemma pad_day_digits d :
  1 <= d <= 31 ->
  exists c1 c2 a b, pad_start_2 (to_string d) = String c1 (String c2 EmptyString) /\
    dec_digit c1 = Some a /\ dec_digit c2 = Some b /\ d = a * 10 + b.
Proof.
  intros Hd.
  assert (H : forallb (fun d => match pad_start_2 (to_string d) with
                               | String c1 (String c2 EmptyString) =>
                                   match dec_digit c1, dec_digit c2 with
                                   | Some a, Some b => a * 10 + b =? d
                                   | _, _ => false
                                   end
                               | _ => false
                               end)
                (map (fun k => 1 + Z.of_nat k) (seq 0 (Z.to_nat 31))) = true)
    by (vm_compute; reflexivity).
  rewrite forallb_forall in H. specialize (H d (in_range_seq 1 31 d ltac:(lia) ltac:(lia))).
  destruct (pad_start_2 (to_string d)) as [|c1 [|c2 [|c3 r]]]; try discriminate H.
  destruct (dec_digit c1) as [a|] eqn:E1, (dec_digit c2) as [b|] eqn:E2; try discriminate H.
  apply Z.eqb_eq in H. exists c1, c2, a, b.
  refine (conj eq_refl (conj E1 (conj E2 _))). lia.
Qed.

Lemma iso_date_of_day y m d :
  1000 <= y <= 9998 -> 1 <= m <= 12 -> 1 <= d <= 31 ->
  iso_date (date_of_day y m d) = Some (y, m, d).
Proof.
  intros Hy Hm Hd. destruct (month_bounds y m Hy Hm) as [H _].
  assert (E1 : monthStart y m =
               ((to_string y ++ "-" ++ pad_start_2 (to_string m) ++ "-") ++ "01")%string)
    by (unfold monthStart; rewrite !str_append_assoc; reflexivity).
  assert (E2 : date_of_day y m d =
               ((to_string y ++ "-" ++ pad_start_2 (to_string m) ++ "-")
                ++ pad_start_2 (to_string d))%string)
    by (unfold date_of_day; rewrite !str_append_assoc; reflexivity).
  rewrite E1 in H. destruct (pad_day_digits d Hd) as (c1 & c2 & a & b & Hp & H1 & H2 & ->).
  rewrite E2, Hp. exact (iso_date_set_day _ _ _ _ _ _ _ H H1 H2).
Qed.

Lemma in_calendar_month_day y m d :
  1 <= m <= 12 -> 1 <= d <= 31 ->
  iso_date (date_of_day y m d) = Some (y, m, d) ->
  in_calendar_month y m (date_of_day y m d) = true.
Proof.
  intros Hm Hd Hiso. unfold in_calendar_month. rewrite Hiso.
  unfold date_leb, date_ltb, date_compare, next_month_date. rewrite !Z.compare_refl.
  destruct (Z.compare_spec 1 d) as [E|E|E]; [| |lia]; destruct (m =? 12);
    try (replace (Z.compare y (y + 1)) with Lt by (symmetry; apply Z.compare_lt_iff; lia));
    try (replace (Z.compare m (m + 1)) with Lt by (symmetry; apply Z.compare_lt_iff; lia));
    rewrite ?Z.compare_refl; reflexivity.
Qed.

(** For a day of a month with a year from 1000 to 9998, the day view
    returns only rows that the month view also returns. *)
Theorem day_rows_in_month y m d s :
  wf_store s = true -> 1000 <= y <= 9998 -> 1 <= m <= 12 -> 1 <= d <= 31 ->
  iso_date (date_of_day y m d) = Some (y, m, d) /\
  exists resD resM,
    getApartmentsByDate y m d s = (Ok resD, s) /\ getApartmentsByMonth y m s = (Ok resM, s) /\
    forall r, In r resD -> In r resM.
Proof.
  intros Hwf Hy Hm Hd. pose proof (iso_date_of_day y m d Hy Hm Hd) as Hiso.
  split; [exact Hiso|].
  exists (map (fun a => mkAWE a (employees_for_apartment s (Apartment.id a))) (day_query y m d s)),
         (map (fun a => mkAWE a (employees_for_apartment s (Apartment.id a))) (month_query y m s)).
  split; [|split].
  - unfold getApartmentsByDate, bind, get_store. apply with_employees_ok.
    apply (wf_rows_int4 s); [exact Hwf | apply day_query_incl].
  - unfold getApartmentsByMonth, bind, get_store. apply with_employees_ok.
    apply (wf_rows_int4 s); [exact Hwf | apply month_query_incl].
  - intros r Hr. apply in_map_iff in Hr as [a [<- Ha]].
    apply (in_map (fun a => mkAWE a (employees_for_apartment s (Apartment.id a)))).
    unfold day_query in Ha. apply (Permutation_in _ (sort_by_perm _ _)), filter_In in Ha.
    destruct Ha as [Ha Hdate]. apply String.eqb_eq in Hdate.
    unfold month_query. apply (Permutation_in _ (Permutation_sym (sort_by_perm _ _))).
    apply filter_In. split; [exact Ha|].
    rewrite in_month_calendar by (try rewrite Hdate, Hiso; easy).
    rewrite Hdate. now apply in_calendar_month_day.
Qed.

(** ** Routes that read: their answers *)

Lemma wf_apt_int4 s id : wf_store s = true -> apartment_exists s id = true -> int4_ok id = true.
Proof.
  intros Hwf Hex. apply apartment_exists_iff in Hex as [x [Hx <-]].
  exact (proj1 (wf_apt_ids s (wf_store_props s Hwf) x Hx)).
Qed.








(** ** Writes that fail half way *)

Lemma staff_of_filter_other s id aid :
  aid <> id ->
  staff_of (with_tables s (apartments s) (employees_tbl s)
              (filter (fun asg => negb (Assignment.apartment_id asg =? id)) (assignments s))) aid
  = staff_of s aid.
Proof.
  intros Hne. unfold staff_of. simpl. f_equal. apply filter_filter_implied.
  intros asg H. apply Z.eqb_eq in H. rewrite H. apply negb_true_iff, Z.eqb_neq. exact Hne.
Qed.

(** PUT /apartments/:id with a body whose texts hold no NUL byte and whose
    price fits, and an unknown employee id, answers 500 but keeps the
    updated fields and the removal of the old assignments of the
    apartment. *)
Theorem put_unknown_employee_partial param id a pr e rest s :
  wf_store s = true -> parseInt param = Some id -> apartment_exists s id = true ->
  existsb has_nul (payload_texts a) = false ->
  price_of_payload a = Some pr -> employee_exists s e = false ->
  exists s', put_apartment param (Valid a (Some (e :: rest))) s =
      (mkResponse 500 (Message "Error updating apartment"), s') /\
    apartments s' =
      map (fun row => if Apartment.id row =? id then set_fields a pr row else row) (apartments s) /\
    employees_tbl s' = employees_tbl s /\
    staff_of s' id = [] /\
    (forall aid, aid <> id -> staff_of s' aid = staff_of s aid).
Proof.
  intros Hwf Hp Hex Hnd Hpr He.
  pose proof (wf_apt_int4 s id Hwf Hex) as Hid.
  set (s1 := with_tables s
               (map (fun row => if Apartment.id row =? id then set_fields a pr row else row)
                    (apartments s)) (employees_tbl s) (assignments s)).
  set (s2 := with_tables s1 (apartments s1) (employees_tbl s1)
               (filter (fun asg => negb (Assignment.apartment_id asg =? id)) (assignments s1))).
  destruct (createAssignment_cases id e s2)
    as [(_ & _ & _ & _ & He2 & _) | (msg & s3 & Hc & Ha3 & He3 & As3)].
  { exfalso. unfold employee_exists in He, He2. simpl in He2. congruence. }
  exists s3.
  assert (Hu : updateApartment id a (e :: rest) s = (Throw msg, s3)).
  { unfold updateApartment. rewrite (bind_ok _ _ _ _ _ (update_apartment_ok id a pr s Hid Hnd Hpr)).
    rewrite (bind_ok _ _ _ _ _ (deleteAssignmentsByApartment_ok id s1 Hid)).
    apply bind_throw. cbn [for_each]. apply bind_throw, bind_throw. exact Hc. }
  split; [|split; [|split; [|split]]].
  - unfold put_apartment, run. rewrite Hp, Hu. reflexivity.
  - rewrite Ha3. reflexivity.
  - rewrite He3. reflexivity.
  - unfold staff_of. rewrite As3. exact (staff_of_deleted s1 id).
  - intros aid Hne. unfold staff_of at 1. rewrite As3.
    exact (staff_of_filter_other s1 id aid Hne).
Qed.

(** A price that does not fit [numeric(10,2)] makes PUT and POST
    /apartments answer 500 without changing any table. *)
Theorem price_overflow_writes_nothing param id a ids s :
  price_of_payload a = None ->
  (parseInt param = Some id ->
     put_apartment param (Valid a ids) s = (mkResponse 500 (Message "Error updating apartment"), s)) /\
  (exists s', post_apartment (Valid a ids) s =
       (mkResponse 500 (Message "Error creating apartment"), s') /\
     apartments s' = apartments s /\ employees_tbl s' = employees_tbl s /\
     assignments s' = assignments s).
Proof.
  intros Hpr. split.
  - intros Hp. unfold put_apartment, run, updateApartment. rewrite Hp.
    unfold update_apartment, bind, check_int4, bind_texts.
    destruct (int4_ok id), (existsb has_nul (payload_texts a)); simpl; rewrite ?Hpr; reflexivity.
  - unfold post_apartment, run. cbv zeta.
    destruct (createApartment_throws a (match ids with Some l => l | None => [] end) s)
      as [msg E].
    rewrite E. destruct (insert_apartment_throws a s) as [msg' E']. rewrite E'. cbn [snd].
    destruct (existsb has_nul (payload_texts a)); [|rewrite Hpr];
      eexists; repeat split; reflexivity.
Qed.

(** ** Deleting an apartment *)

Lemma pair_stored_after_apartment_delete s A E id x e :
  pair_stored (with_tables s A E
                 (filter (fun asg => negb (Assignment.apartment_id asg =? id)) (assignments s))) x e
  = pair_stored s x e && negb (x =? id).
Proof.
  unfold pair_stored, with_tables. simpl.
  induction (assignments s) as [|asg l IH]; simpl; [reflexivity|].
  destruct (Assignment.apartment_id asg =? id) eqn:E1, (Assignment.apartment_id asg =? x) eqn:E2;
    simpl; rewrite ?E2; simpl; rewrite IH.
  - apply Z.eqb_eq in E1, E2. replace (x =? id) with true
      by (symmetry; apply Z.eqb_eq; congruence).
    rewrite !andb_false_r. reflexivity.
  - reflexivity.
  - apply Z.eqb_eq in E2. apply Z.eqb_neq in E1. replace (x =? id) with false
      by (symmetry; apply Z.eqb_neq; congruence).
    rewrite !andb_true_r. reflexivity.
  - reflexivity.
Qed.

Lemma fields_after_delete (P : Apartment.t -> bool) id l :
  map apartment_fields
    (filter (fun a => P a && negb (Apartment.id a =? id))
            (filter (fun a => negb (Apartment.id a =? id)) l)) =
  filter (fun f => negb (ApartmentFields.id f =? id)) (map apartment_fields (filter P l)).
Proof.
  induction l as [|x l IH]; [reflexivity|]. simpl.
  destruct (Apartment.id x =? id) eqn:Ex; simpl; rewrite ?andb_true_r, ?andb_false_r;
    destruct (P x); simpl; rewrite ?Ex; simpl; rewrite ?IH; reflexivity.
Qed.

(** [deleteApartment] removes the apartment and its assignments and nothing
    else: the other apartments keep their employees, and the employees lose
    only that apartment. *)
Theorem deleteApartment_frame s id :
  wf_store s = true -> apartment_exists s id = true ->
  exists s', deleteApartment id s = (Ok tt, s') /\
    apartments s' = filter (fun a => negb (Apartment.id a =? id)) (apartments s) /\
    employees_tbl s' = employees_tbl s /\
    getApartment id s' = (Ok None, s') /\
    staff_of s' id = [] /\
    (forall aid, aid <> id -> employees_for_apartment s' aid = employees_for_apartment s aid) /\
    (forall eid, apartments_for_employee s' eid =
                 filter (fun f => negb (ApartmentFields.id f =? id)) (apartments_for_employee s eid)).
Proof.
  intros Hwf Hex. pose proof (wf_apt_int4 s id Hwf Hex) as Hid.
  set (s' := with_tables s (filter (fun a => negb (Apartment.id a =? id)) (apartments s))
               (employees_tbl s)
               (filter (fun asg => negb (Assignment.apartment_id asg =? id)) (assignments s))).
  assert (Hd : deleteApartment id s = (Ok tt, s')).
  { unfold deleteApartment, delete_apartments, bind, check_int4. rewrite Hid. reflexivity. }
  assert (Hwf' : wf_store s' = true)
    by exact (delete_apartments_keeps_wf id s _ s' Hwf Hd).
  exists s'. split; [exact Hd|]. split; [reflexivity|]. split; [reflexivity|].
  split; [|split; [|split]].
  - apply getApartment_missing; [exact Hid|]. apply not_true_is_false. intros H.
    apply apartment_exists_iff in H as [x [Hx Hxid]]. apply filter_In in Hx as [_ Hx].
    rewrite Hxid, Z.eqb_refl in Hx. discriminate.
  - exact (staff_of_deleted s id).
  - intros aid Hne. rewrite !employees_for_apartment_wf by assumption. f_equal.
    apply filter_ext. intros e. unfold s'. rewrite pair_stored_after_apartment_delete.
    replace (aid =? id) with false by (symmetry; apply Z.eqb_neq; exact Hne).
    apply andb_true_r.
  - intros eid. rewrite !apartments_for_employee_wf by assumption.
    rewrite (filter_ext _ (fun a => pair_stored s (Apartment.id a) eid && negb (Apartment.id a =? id)))
      by (intros x; apply pair_stored_after_apartment_delete).
    change (apartments s') with (filter (fun a => negb (Apartment.id a =? id)) (apartments s)).
    apply fields_after_delete.
Qed.

(** PUT /apartments/:id on a missing apartment answers 500 without
    changing any table. *)
Theorem put_missing_writes_nothing param id a ids s :
  wf_store s = true -> parseInt param = Some id -> apartment_exists s id = false ->
  exists s', put_apartment param (Valid a ids) s =
      (mkResponse 500 (Message "Error updating apartment"), s') /\
    apartments s' = apartments s /\ employees_tbl s' = employees_tbl s /\
    assignments s' = assignments s.
Proof.
  intros Hwf Hp Hex. pose proof (wf_store_props s Hwf) as W.
  assert (Hu : forall L, exists msg s', updateApartment id a L s = (Throw msg, s') /\
             apartments s' = apartments s /\ employees_tbl s' = employees_tbl s /\
             assignments s' = assignments s).
  { intros L. destruct (int4_ok id) eqn:Hid.
    2:{ unfold updateApartment, update_apartment, bind, check_int4. rewrite Hid.
        do 2 eexists. split; [reflexivity|]. auto. }
    destruct (existsb has_nul (payload_texts a)) eqn:Hnul.
    { destruct (update_apartment_nul id a s Hnul) as [m Hup].
      unfold updateApartment. rewrite (bind_throw _ _ _ _ _ Hup).
      do 2 eexists. split; [reflexivity|]. auto. }
    destruct (price_of_payload a) as [pr|] eqn:Hpr.
    2:{ unfold updateApartment, update_apartment, bind, check_int4. rewrite Hid. simpl.
        rewrite (bind_texts_ok _ s Hnul), Hpr. do 2 eexists. split; [reflexivity|]. auto. }
    assert (Hmap : map (fun row => if Apartment.id row =? id then set_fields a pr row else row)
                     (apartments s) = apartments s).
    { rewrite <- (map_id (apartments s)) at 2. apply map_ext_in. intros row Hrow.
      destruct (Apartment.id row =? id) eqn:E; [|reflexivity].
      apply Z.eqb_eq in E. exfalso.
      assert (apartment_exists s id = true) by (apply apartment_exists_iff; eauto). congruence. }
    assert (Hdel : filter (fun asg => negb (Assignment.apartment_id asg =? id)) (assignments s)
                   = assignments s).
    { apply filter_all_true. intros asg Ha. apply negb_true_iff, Z.eqb_neq. intros E.
      destruct (wf_fk s W asg Ha) as [Hfk _]. rewrite E in Hfk. congruence. }
    assert (H1 : update_apartment id a s = (Ok tt, s))
      by (rewrite (update_apartment_ok id a pr s Hid Hnul Hpr), Hmap, with_tables_same; reflexivity).
    assert (H2 : deleteAssignmentsByApartment id s = (Ok tt, s))
      by (rewrite (deleteAssignmentsByApartment_ok id s Hid), Hdel, with_tables_same; reflexivity).
    unfold updateApartment. rewrite (bind_ok _ _ _ _ _ H1), (bind_ok _ _ _ _ _ H2).
    destruct L as [|e rest].
    - cbn [for_each]. rewrite (bind_ok (ret tt) _ s tt s eq_refl).
      rewrite (bind_ok _ _ _ _ _ (getApartment_missing s id Hid Hex)).
      do 2 eexists. split; [reflexivity|]. auto.
    - destruct (createAssignment_cases id e s)
        as [(_ & _ & _ & Hx & _) | (msg & s3 & Hc & Ha3 & He3 & As3)]; [congruence|].
      exists msg, s3. split; [|auto].
      apply bind_throw. cbn [for_each]. apply bind_throw, bind_throw. exact Hc. }
  destruct (Hu (match ids with Some l => l | None => [] end)) as (msg & s' & Hu' & Ha & He & As).
  exists s'. split; [|auto].
  unfold put_apartment, run. rewrite Hp, Hu'. reflexivity.
Qed.


Lemma joins_exact_witness :
  wf_store example_store = true /\
  (forall aid, NoDup (map EmployeeName.id (employees_for_apartment example_store aid)) /\
     (forall e, In e (employees_tbl example_store) ->
       (In (EmployeeName.mk (Employee.id e) (Employee.first_name e) (Employee.last_name e))
           (employees_for_apartment example_store aid) <->
        pair_stored example_store aid (Employee.id e) = true)) /\
     (forall en, In en (employees_for_apartment example_store aid) ->
       exists e, In e (employees_tbl example_store) /\
         pair_stored example_store aid (Employee.id e) = true /\
         en = EmployeeName.mk (Employee.id e) (Employee.first_name e) (Employee.last_name e))) /\
  (forall eid, NoDup (map ApartmentFields.id (apartments_for_employee example_store eid)) /\
     (forall a, In a (apartments example_store) ->
       (In (apartment_fields a) (apartments_for_employee example_store eid) <->
        pair_stored example_store (Apartment.id a) eid = true)) /\
     (forall af, In af (apartments_for_employee example_store eid) ->
       exists a, In a (apartments example_store) /\
         pair_stored example_store (Apartment.id a) eid = true /\ af = apartment_fields a)).
Proof.
  split; [reflexivity|].
  apply (joins_exact example_store); reflexivity.
Defined.

Lemma getEmployees_spec_witness :
  wf_store example_store = true /\ search_bindable (Some "Bi"%string) = true /\
  exists res, getEmployees (Some "Bi"%string) example_store = (Ok res, example_store) /\
    Sorted (fun a b => by_last_then_first a b = true) (map employee res) /\
    (forall r, In r res ->
       employee_apartments r = apartments_for_employee example_store (Employee.id (employee r))) /\
    (forall q, Some "Bi"%string = Some q -> q <> ""%string -> plain q = true ->
       forall e, In e (map employee res) <->
         In e (employees_tbl example_store) /\
         (contains (Employee.first_name e) q || contains (Employee.last_name e) q) = true) /\
    ((Some "Bi"%string = None \/ Some "Bi"%string = Some ""%string) ->
       Permutation (map employee res) (employees_tbl example_store)).
Proof.
  split; [reflexivity|]. split; [reflexivity|].
  apply (getEmployees_spec (Some "Bi"%string) example_store); reflexivity.
Defined.

Lemma getEmployee_spec_witness :
  wf_store example_store = true /\ int4_ok 1 = true /\
  (employee_exists example_store 1 = false -> getEmployee 1 example_store = (Ok None, example_store)) /\
  (forall e, In e (employees_tbl example_store) -> Employee.id e = 1 ->
     getEmployee 1 example_store =
       (Ok (Some (mkEWA e (apartments_for_employee example_store 1))), example_store)).
Proof.
  split; [reflexivity|]. split; [reflexivity|].
  apply (getEmployee_spec example_store 1); reflexivity.
Defined.

Lemma getApartmentsByDate_rows_witness :
  wf_store example_store = true /\
  exists res, getApartmentsByDate 2024 6 1 example_store = (Ok res, example_store) /\
    Permutation (map apartment res)
      (filter (fun a => String.eqb (Apartment.cleaning_date a) (date_of_day 2024 6 1))
         (apartments example_store)) /\
    Sorted (fun a b => by_start_time a b = true) (map apartment res) /\
    (forall r, In r res ->
       employees r = employees_for_apartment example_store (Apartment.id (apartment r))).
Proof.
  split; [reflexivity|].
  apply (getApartmentsByDate_rows 2024 6 1 example_store); reflexivity.
Defined.

Lemma day_rows_in_month_witness :
  wf_store example_store = true /\ 1000 <= 2024 <= 9998 /\ 1 <= 6 <= 12 /\ 1 <= 1 <= 31 /\
  iso_date (date_of_day 2024 6 1) = Some (2024, 6, 1) /\
  exists resD resM,
    getApartmentsByDate 2024 6 1 example_store = (Ok resD, example_store) /\
    getApartmentsByMonth 2024 6 example_store = (Ok resM, example_store) /\
    forall r, In r resD -> In r resM.
Proof.
  split; [reflexivity|]. split; [lia|]. split; [lia|]. split; [lia|].
  apply (day_rows_in_month 2024 6 1 example_store); [reflexivity | lia | lia | lia].
Defined.





Lemma put_unknown_employee_partial_witness :
  wf_store example_store = true /\ parseInt "1" = Some 1 /\
  apartment_exists example_store 1 = true /\
  existsb has_nul (payload_texts flat_payload) = false /\
  price_of_payload flat_payload = Some None /\ employee_exists example_store 9 = false /\
  exists s', put_apartment "1" (Valid flat_payload (Some [9])) example_store =
      (mkResponse 500 (Message "Error updating apartment"), s') /\
    apartments s' =
      map (fun row => if Apartment.id row =? 1 then set_fields flat_payload None row else row)
        (apartments example_store) /\
    employees_tbl s' = employees_tbl example_store /\
    staff_of s' 1 = [] /\
    (forall aid, aid <> 1 -> staff_of s' aid = staff_of example_store aid).
Proof.
  split; [reflexivity|]. split; [reflexivity|]. split; [reflexivity|].
  split; [reflexivity|]. split; [reflexivity|]. split; [reflexivity|].
  apply (put_unknown_employee_partial "1" 1 flat_payload None 9 [] example_store);
    reflexivity.
Defined.

Lemma price_overflow_writes_nothing_witness :
  price_of_payload overflow_payload = None /\
  (parseInt "1" = Some 1 ->
     put_apartment "1" (Valid overflow_payload (Some [1])) example_store =
       (mkResponse 500 (Message "Error updating apartment"), example_store)) /\
  (exists s', post_apartment (Valid overflow_payload (Some [1])) example_store =
       (mkResponse 500 (Message "Error creating apartment"), s') /\
     apartments s' = apartments example_store /\
     employees_tbl s' = employees_tbl example_store /\
     assignments s' = assignments example_store).
Proof.
  split; [reflexivity|].
  apply (price_overflow_writes_nothing "1" 1 overflow_payload (Some [1]) example_store);
    reflexivity.
Defined.

Lemma deleteApartment_frame_witness :
  wf_store example_store = true /\ apartment_exists example_store 1 = true /\
  exists s', deleteApartment 1 example_store = (Ok tt, s') /\
    apartments s' = filter (fun a => negb (Apartment.id a =? 1)) (apartments example_store) /\
    employees_tbl s' = employees_tbl example_store /\
    getApartment 1 s' = (Ok None, s') /\
    staff_of s' 1 = [] /\
    (forall aid, aid <> 1 ->
       employees_for_apartment s' aid = employees_for_apartment example_store aid) /\
    (forall eid, apartments_for_employee s' eid =
                 filter (fun f => negb (ApartmentFields.id f =? 1))
                   (apartments_for_employee example_store eid)).
Proof.
  split; [reflexivity|]. split; [reflexivity|].
  apply (deleteApartment_frame example_store 1); reflexivity.
Defined.

Lemma put_missing_writes_nothing_witness :
  wf_store example_store = true /\ parseInt "999" = Some 999 /\
  apartment_exists example_store 999 = false /\
  exists s', put_apartment "999" (Valid flat_payload (Some [1])) example_store =
      (mkResponse 500 (Message "Error updating apartment"), s') /\
    apartments s' = apartments example_store /\
    employees_tbl s' = employees_tbl example_store /\
    assignments s' = assignments example_store.
Proof.
  split; [reflexivity|]. split; [reflexivity|]. split; [reflexivity|].
  apply (put_missing_writes_nothing "999" 999 flat_payload (Some [1]) example_store);
    reflexivity.
Defined.
